(** * A shallow embedding of [udp_server.py]

    The UDP room relay keeps two module-level dictionaries, [rooms] and
    [client_to_room], and serves one datagram per iteration of an endless
    loop.  This file models the dictionaries as finite maps, one loop
    iteration as a function from the tables and the iteration's inputs to the
    tables and the datagrams handed to [sendto], and proves the properties the
    specification states about room lifecycle, relay and cleanup. *)

From Stdlib Require Import ZArith String Ascii List.
From Stdlib.Strings Require Import Byte.
From stdpp Require Import base gmap sets list strings.

Local Open Scope string_scope.
Set Warnings "-register-all".

(** ** Data *)

(** A peer address as [recvfrom] returns it for [AF_INET]: (host, port). *)
Definition addr : Type := string * Z.

(** A datagram payload, [bytes] in Python. *)
Definition bytes : Type := list byte.

#[global] Instance byte_eq_dec : EqDecision byte := Byte.byte_eq_dec.

(** What [json.loads] can return.  An object is the Python dict it decodes
    to, kept as its items in insertion order (keys are distinct).  A float is
    held by its binary64 bit pattern; no operation of the server looks at it. *)
Inductive json : Type :=
  | JNull
  | JBool (b : bool)
  | JInt (n : Z)
  | JFloat (bits : Z)
  | JStr (s : string)
  | JArr (items : list json)
  | JObj (fields : list (string * json)).

(** The exceptions that the loop body can meet. *)
Inductive exn : Type :=
  | JSONDecodeError
  | UnicodeDecodeError
  | RecursionError
  | AttributeError
  | TypeError
  | OSError.

(** [rooms[code]] is a dict with the single key ["clients"] holding a set. *)
Record room : Type := Room { clients : gset addr }.

(** The two module-level dictionaries. *)
Record tables : Type := Tables {
  rooms : gmap string room;
  client_to_room : gmap addr string
}.

Definition datagram : Type := bytes * addr.

(** ** Dictionary access on decoded messages *)

Fixpoint assoc (key : string) (fields : list (string * json)) : option json :=
  match fields with
  | [] => None
  | (k, v) :: rest => if decide (k = key) then Some v else assoc key rest
  end.

(** [message.get(key)]: the value, or [None] (JSON null) when the key is
    missing. *)
Definition dict_get (key : string) (fields : list (string * json)) : json :=
  default JNull (assoc key fields).

(** [value == text] for a str literal [text]: only a str can be equal to it. *)
Definition eq_str (value : json) (text : string) : bool :=
  match value with
  | JStr s => bool_decide (s = text)
  | _ => false
  end.

(** ** generate_room_code *)

(** [string.ascii_uppercase + string.digits] *)
Definition alphabet : list ascii :=
  list_ascii_of_string "ABCDEFGHIJKLMNOPQRSTUVWXYZ0123456789".

(** The random source is a stream of draws: [rng i] is the position that
    the [i]-th coming call of [random()] selects, [floor(random() * n)] with
    [n] the population size.  That position is below [n]; the reduction
    modulo [n] keeps the model total on any stream. *)
Definition draws : Type := nat -> nat.

Definition skip (n : nat) (rng : draws) : draws := fun i => rng (i + n).

(** [random.choices(population, k=k)] *)
Definition choices (population : list ascii) (k : nat) (rng : draws) : list ascii :=
  map (fun i => nth (rng i mod length population) population Ascii.zero) (seq 0 k).

(** The candidate drawn by the [n]-th pass through the loop. *)
Definition candidate (len : nat) (rng : draws) (n : nat) : string :=
  string_of_list_ascii (choices alphabet len (skip (n * len) rng)).

(** [generate_room_code(length)]: [while True] is unrolled [fuel] times;
    [None] says that every one of the first [fuel] candidates was taken. *)
Fixpoint generate_room_code (fuel : nat) (len : nat) (rms : gmap string room)
    (rng : draws) : option string :=
  match fuel with
  | O => None
  | S fuel' =>
      let code := string_of_list_ascii (choices alphabet len rng) in
      match rms !! code with
      | None => Some code
      | Some _ => generate_room_code fuel' len rms (skip len rng)
      end
  end.

(** All the lists of [k] characters of the alphabet: the codes of length [k],
    before ["".join]. *)
Fixpoint words (k : nat) : list (list ascii) :=
  match k with
  | O => [[]]
  | S k' => flat_map (fun c => map (cons c) (words k')) alphabet
  end.


(** A fair stream: pass [n] draws the [len] digits of [n] in base 36, lowest
    first. *)
Definition counting (len : nat) : draws :=
  fun i => (i / len / 36 ^ (i mod len)) mod 36.

(** ** The loop body as a state-and-exception computation *)

(** What the body has done so far: the tables as mutated in place, and the
    datagrams passed to [sendto], oldest first. *)
Record proc : Type := Proc { tbl : tables; sent : list datagram }.

Inductive res (A : Type) : Type :=
  | Ret (a : A)
  | Raise (e : exn)
  | Spin.
Arguments Ret {A} a.
Arguments Raise {A} e.
Arguments Spin {A}.

(** Mutations made before an exception stay: the state is returned in every
    case. *)
Definition M (A : Type) : Type := proc -> res A * proc.

Definition ret {A} (a : A) : M A := fun p => (Ret a, p).
Definition raise {A} (e : exn) : M A := fun p => (Raise e, p).
Definition spin {A} : M A := fun p => (Spin, p).
Definition bind {A B} (m : M A) (k : A -> M B) : M B :=
  fun p =>
    match m p with
    | (Ret a, p') => k a p'
    | (Raise e, p') => (Raise e, p')
    | (Spin, p') => (Spin, p')
    end.

Notation "x <- m ;; k" := (bind m (fun x => k))
  (at level 100, m at next level, right associativity).
Notation "m ;;; k" := (bind m (fun _ => k))
  (at level 100, right associativity).

Definition get_rooms : M (gmap string room) := fun p => (Ret (rooms (tbl p)), p).
Definition get_client_to_room : M (gmap addr string) :=
  fun p => (Ret (client_to_room (tbl p)), p).
Definition set_rooms (f : gmap string room -> gmap string room) : M unit :=
  fun p => (Ret tt, Proc (Tables (f (rooms (tbl p))) (client_to_room (tbl p))) (sent p)).
Definition set_client_to_room (f : gmap addr string -> gmap addr string) : M unit :=
  fun p => (Ret tt, Proc (Tables (rooms (tbl p)) (f (client_to_room (tbl p)))) (sent p)).

(** [server_socket.sendto(payload, dest)].  [tx] is the transport's behaviour
    during this iteration: [None] when every call goes through, [Some k] when
    the call number [k] (from 0) raises [OSError].  Nothing is sent after a
    call has raised, so one position is all there is to say. *)
Definition sendto (tx : option nat) (payload : bytes) (dest : addr) : M unit :=
  fun p =>
    if decide (tx = Some (length (sent p)))
    then (Raise OSError, p)
    else (Ret tt, Proc (tbl p) (sent p ++ [(payload, dest)])).

(** [for client_addr in members: if client_addr != addr: sendto(data, client_addr)] *)
Fixpoint broadcast (tx : option nat) (data : bytes) (sender : addr)
    (members : list addr) : M unit :=
  match members with
  | [] => ret tt
  | client_addr :: rest =>
      (if decide (client_addr = sender) then ret tt else sendto tx data client_addr) ;;;
      broadcast tx data sender rest
  end.

(** The generic handler's clean-up, run for the address held by [addr]. *)
Definition cleanup (a : addr) (t : tables) : tables :=
  match client_to_room t !! a with
  | None => t
  | Some room_code =>
      let rooms' :=
        match rooms t !! room_code with
        | Some r =>
            if decide (a ∈ clients r) then
              let remaining := clients r ∖ {[a]} in
              if decide (remaining = ∅)
              then delete room_code (rooms t)
              else <[room_code := Room remaining]> (rooms t)
            else rooms t
        | None => rooms t
        end in
      Tables rooms' (delete a (client_to_room t))
  end.

(** How one run of the body can leave the tables: as they were, with a new
    room for the sender, or with the sender added to an existing room. *)
Inductive touched (a : addr) (t : tables) : tables -> Prop :=
  | touched_not : touched a t t
  | touched_created code :
      rooms t !! code = None ->
      touched a t (Tables (<[code := Room {[a]}]> (rooms t))
                          (<[a := code]> (client_to_room t)))
  | touched_joined code r :
      rooms t !! code = Some r ->
      touched a t (Tables (<[code := Room (clients r ∪ {[a]})]> (rooms t))
                          (<[a := code]> (client_to_room t))).

(** The JSON codec of the standard library is not part of the program:
    [json_loads data] is [json.loads(data.decode())], the decoded value or the
    exception raised, and [json_dumps v] is [json.dumps(v).encode()]. *)
Class JsonCodec : Type := {
  json_loads : bytes -> json + exn;
  json_dumps : json -> bytes
}.

Section Server.

Context {codec : JsonCodec}.

Definition room_created (room_code : string) : bytes :=
  json_dumps (JObj [("action", JStr "room_created"); ("room_code", JStr room_code)]).
Definition joined_room (room_code : json) : bytes :=
  json_dumps (JObj [("action", JStr "joined_room"); ("room_code", room_code)]).
Definition room_not_found : bytes :=
  json_dumps (JObj [("action", JStr "error"); ("message", JStr "Room not found")]).

(** The [create_room] branch. *)
Definition do_create_room (fuel : nat) (rng : draws) (tx : option nat) (a : addr) : M unit :=
  rms <- get_rooms ;;
  match generate_room_code fuel 5 rms rng with
  | None => spin
  | Some room_code =>
      set_rooms (insert room_code (Room {[a]})) ;;;
      set_client_to_room (insert a room_code) ;;;
      sendto tx (room_created room_code) a
  end.

(** The [join_room] branch.  [room_code in rooms] hashes the key first: a
    list or a dict is unhashable and raises [TypeError]; [None], a bool or a
    number is hashable and equal to no str key. *)
Definition do_join_room (tx : option nat) (fields : list (string * json)) (a : addr) : M unit :=
  let room_code := dict_get "room_code" fields in
  rms <- get_rooms ;;
  match room_code with
  | JArr _ | JObj _ => raise TypeError
  | JStr code =>
      match rms !! code with
      | Some r =>
          set_rooms (insert code (Room (clients r ∪ {[a]}))) ;;;
          set_client_to_room (insert a code) ;;;
          sendto tx (joined_room room_code) a
      | None => sendto tx room_not_found a
      end
  | JNull | JBool _ | JInt _ | JFloat _ => sendto tx room_not_found a
  end.

(** The [send_transform] branch.  The members are visited in the order
    [elements] lists them; Python leaves the order of a set unspecified, and
    no statement below depends on it. *)
Definition do_send_transform (tx : option nat) (data : bytes) (a : addr) : M unit :=
  c2r <- get_client_to_room ;;
  match c2r !! a with
  | Some room_code =>
      rms <- get_rooms ;;
      match rms !! room_code with
      | Some r => broadcast tx data a (elements (clients r))
      | None => ret tt
      end
  | None => ret tt
  end.

(** The [try] block after [recvfrom] has returned [(data, addr)]. *)
Definition serve (fuel : nat) (rng : draws) (tx : option nat) (data : bytes) (a : addr) : M unit :=
  match data with
  | [] => ret tt
  | _ :: _ =>
      match json_loads data with
      | inr e => raise e
      | inl (JObj fields) =>
          let action := dict_get "action" fields in
          if eq_str action "create_room" then do_create_room fuel rng tx a
          else if eq_str action "join_room" then do_join_room tx fields a
          else if eq_str action "send_transform" then do_send_transform tx data a
          else ret tt
      | inl _ => raise AttributeError
      end
  end.

(** ** One iteration of [while True] *)

(** The loop keeps the tables and the local variable [addr], unbound until
    the first [recvfrom] has returned. *)
Record server : Type := Server { db : tables; last_addr : option addr }.

(** What an iteration is given: a datagram with the draws and the transport
    behaviour of that iteration, or a [recvfrom] that raises. *)
Inductive event : Type :=
  | Recv (data : bytes) (a : addr) (rng : draws) (tx : option nat)
  | RecvRaises.

(** [Next s out]: the loop goes on in [s] after sending [out]; [Exit]: an
    exception left [server_program] (the handler read [addr] unbound);
    [Stuck]: the iteration is still drawing room codes. *)
Inductive after : Type :=
  | Next (s : server) (out : list datagram)
  | Exit
  | Stuck.

(** [except json.JSONDecodeError] only logs; [except Exception] logs and runs
    the clean-up for [addr].  A [recvfrom] that raises leaves [addr] as the
    previous iteration bound it. *)
Definition iteration (fuel : nat) (ev : event) (s : server) : after :=
  match ev with
  | RecvRaises =>
      match last_addr s with
      | Some a => Next (Server (cleanup a (db s)) (Some a)) []
      | None => Exit
      end
  | Recv data a rng tx =>
      match serve fuel rng tx data a (Proc (db s) []) with
      | (Ret _, p) => Next (Server (tbl p) (Some a)) (sent p)
      | (Raise JSONDecodeError, p) => Next (Server (tbl p) (Some a)) (sent p)
      | (Raise _, p) => Next (Server (cleanup a (tbl p)) (Some a)) (sent p)
      | (Spin, _) => Stuck
      end
  end.

Definition initial : server := Server (Tables ∅ ∅) None.

(** The states the loop can be in at the top of an iteration. *)
Inductive reachable : server -> Prop :=
  | reachable_initial : reachable initial
  | reachable_next s fuel ev s' out :
      reachable s -> iteration fuel ev s = Next s' out -> reachable s'.

End Server.

(** ** A concrete codec for running the model

    [Sample.loads] is the graph of [json.loads(data.decode())] on the
    datagrams that the examples below send, and [Sample.dumps] prints objects
    of plain ASCII strings the way [json.dumps] does. *)
Module Sample.

Definition ascii_text (s : string) : bytes := list_byte_of_string s.

(** A JSON string literal without escapes: the text between two [x22]. *)
Definition quoted (s : string) : bytes := (x22 :: ascii_text s ++ [x22])%list.

Definition member (key : string) (value : bytes) : bytes :=
  (quoted key ++ ascii_text ": " ++ value)%list.

Fixpoint join (sep : bytes) (parts : list bytes) : bytes :=
  match parts with
  | [] => []
  | [part] => part
  | part :: rest => (part ++ sep ++ join sep rest)%list
  end.

Definition object (members : list bytes) : bytes :=
  (ascii_text "{" ++ join (ascii_text ", ") members ++ ascii_text "}")%list.

Definition create_room_request : bytes :=
  object [member "action" (quoted "create_room")].
Definition join_room_request (code : string) : bytes :=
  object [member "action" (quoted "join_room"); member "room_code" (quoted code)].
Definition join_room_no_code : bytes :=
  object [member "action" (quoted "join_room")].
Definition join_room_list_code : bytes :=
  object [member "action" (quoted "join_room"); member "room_code" (ascii_text "[]")].
Definition send_transform_request : bytes :=
  object [member "action" (quoted "send_transform");
          member "x" (ascii_text "1"); member "y" (ascii_text "2")].
Definition empty_array : bytes := ascii_text "[]".
Definition not_json : bytes := ascii_text "hello".

Definition loads (data : bytes) : json + exn :=
  if decide (data = create_room_request) then
    inl (JObj [("action", JStr "create_room")])
  else if decide (data = join_room_request "AAAAA") then
    inl (JObj [("action", JStr "join_room"); ("room_code", JStr "AAAAA")])
  else if decide (data = join_room_request "ZZZZZ") then
    inl (JObj [("action", JStr "join_room"); ("room_code", JStr "ZZZZZ")])
  else if decide (data = join_room_no_code) then
    inl (JObj [("action", JStr "join_room")])
  else if decide (data = join_room_list_code) then
    inl (JObj [("action", JStr "join_room"); ("room_code", JArr [])])
  else if decide (data = send_transform_request) then
    inl (JObj [("action", JStr "send_transform"); ("x", JInt 1); ("y", JInt 2)])
  else if decide (data = empty_array) then
    inl (JArr [])
  else inr JSONDecodeError.

Definition dumps_value (v : json) : bytes :=
  match v with
  | JStr s => quoted s
  | JNull => ascii_text "null"
  | JBool true => ascii_text "true"
  | JBool false => ascii_text "false"
  | _ => []
  end.

Definition dumps (v : json) : bytes :=
  match v with
  | JObj fields => object (map (fun kv => member (fst kv) (dumps_value (snd kv))) fields)
  | _ => dumps_value v
  end.

(** Two peers, and two streams of draws: [zeros] draws ["AAAAA"] each time,
    [ones] draws ["BBBBB"]. *)
Definition alice : addr := ("10.0.0.1", 40001%Z).
Definition bob : addr := ("10.0.0.2", 40002%Z).
Definition zeros : draws := fun _ => 0.
Definition ones : draws := fun _ => 1.

#[local] Instance codec : JsonCodec := {| json_loads := loads; json_dumps := dumps |}.

Definition step (ev : event) (s : server) : after := iteration 3 ev s.

(** Alice has created a room, which was given the code ["AAAAA"]. *)
Definition alice_alone : server :=
  Server (Tables {[ "AAAAA" := Room {[alice]} ]} {[ alice := "AAAAA" ]}) (Some alice).

(** Bob has joined it. *)
Definition alice_and_bob : server :=
  Server (Tables {[ "AAAAA" := Room {[alice; bob]} ]}
                 (<[ bob := "AAAAA" ]> {[ alice := "AAAAA" ]})) (Some bob).

(** Alice, already in ["AAAAA"], has created a second room, ["BBBBB"]. *)
Definition alice_in_two_rooms : server :=
  Server (Tables (<[ "BBBBB" := Room {[alice]} ]> {[ "AAAAA" := Room {[alice]} ]})
                 (<[ alice := "BBBBB" ]> {[ alice := "AAAAA" ]})) (Some alice).

End Sample.

(** Further datagrams: [Sample.loads] extended by two objects without a
    known action, and a registry that holds every code of length 1. *)
Module More.

Import Sample.

Definition leave_room_request : bytes :=
  object [member "action" (quoted "leave_room")].
Definition empty_object : bytes := ascii_text "{}".

Definition loads (data : bytes) : json + exn :=
  if decide (data = leave_room_request) then
    inl (JObj [("action", JStr "leave_room")])
  else if decide (data = empty_object) then
    inl (JObj [])
  else Sample.loads data.

#[local] Instance codec : JsonCodec := {| json_loads := loads; json_dumps := dumps |}.

Definition single_letter_rooms : gmap string room :=
  list_to_map (map (fun w => (string_of_list_ascii w, Room {[alice]})) (words 1)).

End More.

(** ** The properties of the tables *)

(** Every entry of [client_to_room] names a room that exists and holds the
    address. *)
Definition sessions_backed (t : tables) : Prop :=
  forall a c, client_to_room t !! a = Some c ->
    exists r, rooms t !! c = Some r /\ a ∈ clients r.

(** The two tables say the same: an address is in the member set of room [c]
    exactly when [client_to_room] maps it to [c]. *)
Definition in_lockstep (t : tables) : Prop :=
  forall a c, (exists r, rooms t !! c = Some r /\ a ∈ clients r) <->
              client_to_room t !! a = Some c.

(** No room of the registry is empty. *)
Definition no_empty_room (t : tables) : Prop :=
  forall c r, rooms t !! c = Some r -> clients r <> ∅.

(** [key in rms] is [False]: [key] can be hashed and is none of the keys.
    For a list or a dict the test itself raises [TypeError]. *)
Definition not_a_key (rms : gmap string room) (key : json) : Prop :=
  match key with
  | JStr code => rms !! code = None
  | JArr _ | JObj _ => False
  | JNull | JBool _ | JInt _ | JFloat _ => True
  end.

(** The shape of the codes that [server_program] asks for: five characters
    of the alphabet. *)
Definition well_formed_code (code : string) : Prop :=
  String.length code = 5 /\
  Forall (fun ch => ch ∈ alphabet) (list_ascii_of_string code).

(** A datagram that serving [(data, a)] on the tables [t] may send: a reply
    to [a], or the bytes of [data] to another member of the room that
    [client_to_room] gives for [a]. *)
Definition reply_or_relay (t : tables) (data : bytes) (a : addr) (d : datagram) : Prop :=
  d.2 = a \/
  (d.1 = data /\ d.2 <> a /\
   exists c r, client_to_room t !! a = Some c /\ rooms t !! c = Some r /\ d.2 ∈ clients r).

(** ** The room-code generator *)

Lemma length_string_of_list_ascii (l : list ascii) :
  String.length (string_of_list_ascii l) = length l.
Proof. induction l as [|c l IH]; simpl; [reflexivity | now rewrite IH]. Qed.

Lemma length_choices population k rng : length (choices population k rng) = k.
Proof. unfold choices. now rewrite length_map, length_seq. Qed.

Lemma length_alphabet : length alphabet = 36.
Proof. reflexivity. Qed.

Lemma choices_in_alphabet k rng : Forall (fun c => c ∈ alphabet) (choices alphabet k rng).
Proof.
  unfold choices. apply Forall_forall. intros c Hc.
  apply list_elem_of_In, in_map_iff in Hc as (i & <- & _).
  apply list_elem_of_In, nth_In. rewrite length_alphabet.
  apply Nat.mod_upper_bound. discriminate.
Qed.

Lemma choices_ext population k rng rng' :
  (forall i, rng i = rng' i) -> choices population k rng = choices population k rng'.
Proof. intros H. unfold choices. apply map_ext. intros i. now rewrite H. Qed.

Lemma candidate_first len rng :
  candidate len rng 0 = string_of_list_ascii (choices alphabet len rng).
Proof.
  unfold candidate. f_equal. apply choices_ext. intros i. unfold skip.
  f_equal. lia.
Qed.

Lemma candidate_skip len rng n :
  candidate len (skip len rng) n = candidate len rng (S n).
Proof.
  unfold candidate. f_equal. apply choices_ext. intros i. unfold skip.
  f_equal. lia.
Qed.

Lemma length_candidate len rng n : String.length (candidate len rng n) = len.
Proof. unfold candidate. now rewrite length_string_of_list_ascii, length_choices. Qed.

Lemma candidate_in_alphabet len rng n :
  Forall (fun c => c ∈ alphabet) (list_ascii_of_string (candidate len rng n)).
Proof.
  unfold candidate. rewrite list_ascii_of_string_of_list_ascii.
  apply choices_in_alphabet.
Qed.

(** The loop returns the first candidate that is not a key of [rooms]. *)
Lemma generate_room_code_inv fuel len rms rng code :
  generate_room_code fuel len rms rng = Some code ->
  exists n, n < fuel /\ code = candidate len rng n /\ rms !! code = None /\
            forall m, m < n -> rms !! candidate len rng m <> None.
Proof.
  revert rng. induction fuel as [|fuel IH]; intros rng; simpl; [discriminate|].
  destruct (rms !! string_of_list_ascii (choices alphabet len rng)) as [r|] eqn:Hl.
  - intros H. apply IH in H as (n & Hn & Hc & Hf & Hm).
    exists (S n). split; [lia|]. split; [now rewrite <- candidate_skip|].
    split; [exact Hf|]. intros [|m] Hlt.
    + rewrite candidate_first, Hl. discriminate.
    + rewrite <- candidate_skip. apply Hm. lia.
  - intros [= <-]. exists 0. split; [lia|]. split; [now rewrite candidate_first|].
    split; [exact Hl|]. intros m Hlt. lia.
Qed.

Lemma generate_room_code_sound fuel len rms rng code :
  generate_room_code fuel len rms rng = Some code ->
  String.length code = len /\
  Forall (fun c => c ∈ alphabet) (list_ascii_of_string code) /\
  rms !! code = None.
Proof.
  intros H. apply generate_room_code_inv in H as (n & _ & -> & Hf & _).
  split; [apply length_candidate|]. split; [apply candidate_in_alphabet|exact Hf].
Qed.

(** Once a candidate is free the loop has returned. *)
Lemma generate_room_code_returns len rms rng n :
  rms !! candidate len rng n = None ->
  exists code, generate_room_code (S n) len rms rng = Some code.
Proof.
  revert rng. induction n as [|n IH]; intros rng Hfree.
  - rewrite candidate_first in Hfree. simpl. rewrite Hfree. eauto.
  - rewrite <- candidate_skip in Hfree. apply IH in Hfree as [code Hcode].
    change (generate_room_code (S (S n)) len rms rng) with
      (match rms !! string_of_list_ascii (choices alphabet len rng) with
       | None => Some (string_of_list_ascii (choices alphabet len rng))
       | Some _ => generate_room_code (S n) len rms (skip len rng)
       end).
    destruct (rms !! string_of_list_ascii (choices alphabet len rng)); eauto.
Qed.

(** While every candidate is taken the loop goes on. *)
Lemma generate_room_code_spins fuel len rms rng :
  (forall n, rms !! candidate len rng n <> None) ->
  generate_room_code fuel len rms rng = None.
Proof.
  intros H. destruct (generate_room_code fuel len rms rng) as [code|] eqn:E; [|reflexivity].
  apply generate_room_code_inv in E as (n & _ & -> & Hf & _). now apply H in Hf.
Qed.

(** *** Counting the codes *)

Lemma length_flat_map_cons {A} (heads : list A) (tails : list (list A)) :
  length (flat_map (fun c => map (cons c) tails) heads) = length heads * length tails.
Proof.
  induction heads as [|c heads IH]; simpl; [reflexivity|].
  now rewrite length_app, length_map, IH.
Qed.

Lemma words_S k :
  words (S k) = flat_map (fun c => map (cons c) (words k)) alphabet.
Proof. reflexivity. Qed.

Lemma length_words k : length (words k) = 36 ^ k.
Proof.
  induction k as [|k IH]; [reflexivity|].
  rewrite words_S, length_flat_map_cons, IH, length_alphabet, Nat.pow_succ_r'. reflexivity.
Qed.

Lemma NoDup_alphabet : NoDup alphabet.
Proof. apply (bool_decide_unpack (NoDup alphabet)). vm_compute. exact I. Qed.

Lemma elem_of_flat_map_cons {A} (heads : list A) (tails : list (list A)) w :
  w ∈ flat_map (fun c => map (cons c) tails) heads <->
  exists c t, w = c :: t /\ c ∈ heads /\ t ∈ tails.
Proof.
  rewrite list_elem_of_In, in_flat_map. split.
  - intros (c & Hc & Hw). apply in_map_iff in Hw as (t & <- & Ht).
    exists c, t. now rewrite !list_elem_of_In.
  - intros (c & t & -> & Hc & Ht). exists c. rewrite <- list_elem_of_In.
    split; [exact Hc|]. apply in_map_iff. exists t. now rewrite <- list_elem_of_In.
Qed.

Lemma NoDup_flat_map_cons {A} (heads : list A) (tails : list (list A)) :
  NoDup heads -> NoDup tails ->
  NoDup (flat_map (fun c => map (cons c) tails) heads).
Proof.
  intros Hh Ht. induction Hh as [|c heads Hc Hh IH]; simpl; [constructor|].
  apply NoDup_app. split; [|split; [|exact IH]].
  - apply NoDup_fmap_2; [|exact Ht]. intros x y [= ->]. reflexivity.
  - intros w Hw Hw'. apply list_elem_of_In, in_map_iff in Hw as (t & <- & _).
    apply elem_of_flat_map_cons in Hw' as (c' & t' & [= -> ->] & Hc' & _). contradiction.
Qed.

Lemma NoDup_words k : NoDup (words k).
Proof.
  induction k as [|k IH].
  - apply NoDup_singleton.
  - rewrite words_S. apply NoDup_flat_map_cons; [apply NoDup_alphabet | exact IH].
Qed.

(** Every word is what [random.choices] returns on some draws. *)
Lemma words_drawn k w :
  w ∈ words k -> exists rng, choices alphabet k rng = w.
Proof.
  revert w. induction k as [|k IH]; intros w Hw.
  - apply list_elem_of_singleton in Hw as ->. exists (fun _ => 0). reflexivity.
  - rewrite words_S in Hw. apply elem_of_flat_map_cons in Hw as (c & t & -> & Hc & Ht).
    apply IH in Ht as [rng Hrng].
    apply list_elem_of_In, (In_nth _ _ Ascii.zero) in Hc as (i & Hi & Hnth).
    exists (fun j => match j with O => i | S j' => rng j' end).
    unfold choices in *. cbn [seq map]. rewrite <- seq_shift, map_map.
    rewrite Nat.mod_small by exact Hi. now f_equal.
Qed.

(** With fewer keys than there are codes of length [len], one is free, and
    some draws produce it. *)
Lemma free_code_exists len (rms : gmap string room) :
  size (dom rms) < 36 ^ len ->
  exists rng, rms !! candidate len rng 0 = None.
Proof.
  intros Hsize.
  set (codes := map string_of_list_ascii (words len)).
  assert (Hnd : NoDup codes).
  { apply NoDup_fmap_2; [|apply NoDup_words].
    intros x y Hxy. rewrite <- (list_ascii_of_string_of_list_ascii x),
      <- (list_ascii_of_string_of_list_ascii y). now rewrite Hxy. }
  destruct (decide (Forall (fun c => c ∈ dom rms) codes)) as [Hall|Hex].
  - exfalso. assert (Hle : length codes <= size (dom rms)).
    { unfold size, set_size. simpl. apply submseteq_length, NoDup_submseteq; [exact Hnd|].
      intros c Hc. apply elem_of_elements. rewrite Forall_forall in Hall. now apply Hall. }
    unfold codes in Hle. rewrite length_map, length_words in Hle. lia.
  - apply not_Forall_Exists in Hex; [|intros c; apply _].
    apply Exists_exists in Hex as (c & Hc & Hfree).
    apply list_elem_of_In, in_map_iff in Hc as (w & <- & Hw).
    apply list_elem_of_In, words_drawn in Hw as [rng Hrng].
    exists rng. rewrite candidate_first, Hrng.
    now apply not_elem_of_dom.
Qed.

(** ** The loop body *)

Lemma sendto_delivers payload dest p :
  sendto None payload dest p = (Ret tt, Proc (tbl p) (sent p ++ [(payload, dest)])).
Proof. unfold sendto. case_decide; [discriminate | reflexivity]. Qed.

Lemma sendto_tbl tx payload dest p r p' :
  sendto tx payload dest p = (r, p') -> tbl p' = tbl p.
Proof. unfold sendto. case_decide; intros [= <- <-]; reflexivity. Qed.

Lemma broadcast_tbl tx data sender members p r p' :
  broadcast tx data sender members p = (r, p') -> tbl p' = tbl p.
Proof.
  revert p. induction members as [|m members IH]; intros p; simpl.
  - intros [= <- <-]. reflexivity.
  - unfold bind. case_decide.
    + simpl. apply IH.
    + destruct (sendto tx data m p) as [[[]| |] q] eqn:E; apply sendto_tbl in E.
      * intros Hrest. apply IH in Hrest. congruence.
      * intros [= <- <-]. exact E.
      * intros [= <- <-]. exact E.
Qed.

(** On a transport that lets every call through, the loop sends the payload
    to the members other than the sender, in the order they are visited. *)
Lemma broadcast_delivers data sender members p :
  broadcast None data sender members p =
  (Ret tt, Proc (tbl p) (sent p ++ map (pair data) (filter (fun m => m <> sender) members))).
Proof.
  revert p. induction members as [|m members IH]; intros p; simpl.
  - rewrite app_nil_r. now destruct p.
  - unfold bind. rewrite filter_cons. case_decide as Hm.
    + simpl. rewrite IH. rewrite decide_False by (intros Hne; now apply Hne).
      reflexivity.
    + rewrite sendto_delivers, IH. simpl. rewrite decide_True by exact Hm.
      simpl. now rewrite <- app_assoc.
Qed.

(** ** Invariants of the tables *)

Lemma touched_sessions_backed a t t' :
  touched a t t' -> sessions_backed t -> sessions_backed t'.
Proof.
  intros Ht Hinv. destruct Ht as [|code Hfree|code r Hr]; [exact Hinv| |];
    intros b c Hb; simpl in *.
  - destruct (decide (a = b)) as [->|Hab].
    + rewrite lookup_insert_eq in Hb. injection Hb as <-.
      exists (Room {[b]}). rewrite lookup_insert_eq. split; [reflexivity|]. simpl. set_solver.
    + rewrite lookup_insert_ne in Hb by exact Hab.
      apply Hinv in Hb as (r & Hr & Hin). exists r. split; [|exact Hin].
      rewrite lookup_insert_ne; [exact Hr|]. intros ->. congruence.
  - destruct (decide (a = b)) as [->|Hab].
    + rewrite lookup_insert_eq in Hb. injection Hb as <-.
      exists (Room (clients r ∪ {[b]})). rewrite lookup_insert_eq.
      split; [reflexivity|]. simpl. set_solver.
    + rewrite lookup_insert_ne in Hb by exact Hab.
      apply Hinv in Hb as (r' & Hr' & Hin). destruct (decide (code = c)) as [->|Hc].
      * exists (Room (clients r ∪ {[a]})). rewrite lookup_insert_eq.
        split; [reflexivity|]. simpl. rewrite Hr in Hr'. injection Hr' as ->. set_solver.
      * exists r'. rewrite lookup_insert_ne by exact Hc. auto.
Qed.

Lemma cleanup_sessions_backed a t :
  sessions_backed t -> sessions_backed (cleanup a t).
Proof.
  intros Hinv b c. unfold cleanup.
  destruct (client_to_room t !! a) as [ca|] eqn:Ha; [|apply Hinv]. simpl.
  destruct (decide (a = b)) as [->|Hab]; [now rewrite lookup_delete_eq|].
  rewrite lookup_delete_ne by exact Hab. intros Hb.
  apply Hinv in Hb as (r & Hr & Hin).
  destruct (rooms t !! ca) as [ra|] eqn:Hra; [|eauto].
  destruct (decide (a ∈ clients ra)) as [Hmem|]; [|eauto].
  destruct (decide (ca = c)) as [->|Hc].
  - rewrite Hr in Hra. injection Hra as <-.
    rewrite decide_False by set_solver.
    exists (Room (clients r ∖ {[a]})). rewrite lookup_insert_eq.
    split; [reflexivity|]. simpl. set_solver.
  - exists r. split; [|exact Hin].
    destruct (decide (clients ra ∖ {[a]} = ∅)).
    + now rewrite lookup_delete_ne.
    + now rewrite lookup_insert_ne.
Qed.

Lemma touched_no_empty_room a t t' :
  touched a t t' -> no_empty_room t -> no_empty_room t'.
Proof.
  intros Ht Hinv. destruct Ht as [|code Hfree|code r Hr]; [exact Hinv| |];
    intros c rc; simpl; (destruct (decide (code = c)) as [->|Hc];
      [rewrite lookup_insert_eq; intros [= <-]; simpl; set_solver
      |rewrite lookup_insert_ne by exact Hc; apply Hinv]).
Qed.

Lemma cleanup_no_empty_room a t :
  no_empty_room t -> no_empty_room (cleanup a t).
Proof.
  intros Hinv c rc. unfold cleanup.
  destruct (client_to_room t !! a) as [ca|]; [|apply Hinv]. simpl.
  destruct (rooms t !! ca) as [ra|]; [|apply Hinv].
  destruct (decide (a ∈ clients ra)); [|apply Hinv].
  destruct (decide (clients ra ∖ {[a]} = ∅)) as [|Hne].
  - destruct (decide (ca = c)) as [->|Hc]; [now rewrite lookup_delete_eq|].
    rewrite lookup_delete_ne by exact Hc. apply Hinv.
  - destruct (decide (ca = c)) as [->|Hc].
    + rewrite lookup_insert_eq. intros [= <-]. exact Hne.
    + rewrite lookup_insert_ne by exact Hc. apply Hinv.
Qed.

Section Properties.

Context {codec : JsonCodec}.

Lemma do_create_room_touched fuel rng tx a t r p :
  do_create_room fuel rng tx a (Proc t []) = (r, p) -> touched a t (tbl p).
Proof.
  unfold do_create_room, bind, get_rooms. simpl.
  destruct (generate_room_code fuel 5 (rooms t) rng) as [code|] eqn:E.
  - apply generate_room_code_sound in E as (_ & _ & Hfree).
    unfold set_rooms, set_client_to_room. simpl.
    set (p0 := Proc _ _).
    destruct (sendto tx (room_created code) a p0) as [[[]| |] q] eqn:Es;
      apply sendto_tbl in Es; intros [= <- <-]; rewrite Es; now constructor.
  - intros [= <- <-]. constructor.
Qed.

Lemma do_join_room_touched tx fields a t r p :
  do_join_room tx fields a (Proc t []) = (r, p) -> touched a t (tbl p).
Proof.
  unfold do_join_room, bind, get_rooms. simpl.
  destruct (dict_get "room_code" fields) as [| | | |code| |];
    try (intros E; apply sendto_tbl in E; simpl in E; rewrite E; constructor);
    try (intros [= <- <-]; constructor).
  destruct (rooms t !! code) as [rm|] eqn:Hl.
  - unfold set_rooms, set_client_to_room. simpl. set (p0 := Proc _ _).
    destruct (sendto tx (joined_room (JStr code)) a p0) as [[[]| |] q] eqn:Es;
      apply sendto_tbl in Es; intros [= <- <-]; rewrite Es; now constructor.
  - intros E; apply sendto_tbl in E; simpl in E; rewrite E; constructor.
Qed.

Lemma do_send_transform_tbl tx data a p r p' :
  do_send_transform tx data a p = (r, p') -> tbl p' = tbl p.
Proof.
  unfold do_send_transform, bind, get_client_to_room, get_rooms, ret.
  destruct (client_to_room (tbl p) !! a) as [code|]; [|now intros [= <- <-]].
  destruct (rooms (tbl p) !! code) as [rm|]; [|now intros [= <- <-]].
  apply broadcast_tbl.
Qed.

Lemma serve_touched fuel rng tx data a t r p :
  serve fuel rng tx data a (Proc t []) = (r, p) -> touched a t (tbl p).
Proof.
  unfold serve. destruct data as [|b data]; [intros [= <- <-]; constructor|].
  destruct (json_loads (b :: data)) as [[| | | | | |fields]|e];
    try (intros [= <- <-]; constructor).
  destruct (eq_str _ "create_room"); [apply do_create_room_touched|].
  destruct (eq_str _ "join_room"); [apply do_join_room_touched|].
  destruct (eq_str _ "send_transform").
  - intros E. apply do_send_transform_tbl in E. simpl in E. rewrite E. constructor.
  - intros [= <- <-]; constructor.
Qed.

(** An iteration that lets the loop go on has bound [addr]; its tables come
    from one run of the body, followed or not by the clean-up of [addr]. *)
Lemma iteration_tables fuel ev s s' out :
  iteration fuel ev s = Next s' out ->
  exists a t, last_addr s' = Some a /\ touched a (db s) t /\
              (db s' = t \/ db s' = cleanup a t).
Proof.
  unfold iteration. destruct ev as [data a rng tx|].
  - destruct (serve fuel rng tx data a (Proc (db s) [])) as [[[]|e|] p] eqn:E;
      [| |discriminate]; apply serve_touched in E.
    + intros [= <- <-]. exists a, (tbl p). auto.
    + destruct e; intros [= <- <-]; exists a, (tbl p); auto.
  - destruct (last_addr s) as [a|]; [|discriminate].
    intros [= <- <-]. exists a, (db s). split; [reflexivity|]. split; [constructor|auto].
Qed.

(** ** Requests *)

(** The body on a non-empty datagram that decodes to an object. *)
Lemma serve_create_room fuel rng tx data a fields :
  data <> [] -> json_loads data = inl (JObj fields) ->
  dict_get "action" fields = JStr "create_room" ->
  serve fuel rng tx data a = do_create_room fuel rng tx a.
Proof.
  intros Hdata Hloads Haction. unfold serve.
  destruct data; [contradiction|]. now rewrite Hloads, Haction.
Qed.

Lemma serve_join_room fuel rng tx data a fields :
  data <> [] -> json_loads data = inl (JObj fields) ->
  dict_get "action" fields = JStr "join_room" ->
  serve fuel rng tx data a = do_join_room tx fields a.
Proof.
  intros Hdata Hloads Haction. unfold serve.
  destruct data; [contradiction|]. now rewrite Hloads, Haction.
Qed.

Lemma serve_send_transform fuel rng tx data a fields :
  data <> [] -> json_loads data = inl (JObj fields) ->
  dict_get "action" fields = JStr "send_transform" ->
  serve fuel rng tx data a = do_send_transform tx data a.
Proof.
  intros Hdata Hloads Haction. unfold serve.
  destruct data; [contradiction|]. now rewrite Hloads, Haction.
Qed.

(** A key that [rooms] does not hold gets the error reply, whatever hashable
    value it is. *)
Lemma do_join_room_not_found fields a p :
  not_a_key (rooms (tbl p)) (dict_get "room_code" fields) ->
  do_join_room None fields a p =
  (Ret tt, Proc (tbl p) (sent p ++ [(room_not_found, a)])).
Proof.
  unfold do_join_room, bind, get_rooms.
  destruct (dict_get "room_code" fields) as [| | | |code| |]; simpl;
    try contradiction; try (intros _; apply sendto_delivers).
  intros ->. apply sendto_delivers.
Qed.

Lemma iteration_join_not_found fuel data a rng s fields :
  data <> [] ->
  json_loads data = inl (JObj fields) ->
  dict_get "action" fields = JStr "join_room" ->
  not_a_key (rooms (db s)) (dict_get "room_code" fields) ->
  iteration fuel (Recv data a rng None) s =
  Next (Server (db s) (Some a)) [(room_not_found, a)].
Proof.
  intros Hdata Hloads Haction Hkey. unfold iteration.
  rewrite (serve_join_room _ _ _ _ _ fields) by assumption.
  now rewrite do_join_room_not_found.
Qed.

(** A list or a dict as [room_code] cannot be hashed: nothing is sent. *)
Lemma do_join_room_unhashable tx fields a p :
  (exists items, dict_get "room_code" fields = JArr items) \/
  (exists members, dict_get "room_code" fields = JObj members) ->
  do_join_room tx fields a p = (Raise TypeError, p).
Proof.
  unfold do_join_room, bind, get_rooms. now intros [[x ->]|[x ->]].
Qed.

(** A served [create_room]: the generator returned [code], the tables hold
    the new room, and the reply goes to the sender. *)
Lemma iteration_create_room fuel data a rng s s' out fields :
  data <> [] ->
  json_loads data = inl (JObj fields) ->
  dict_get "action" fields = JStr "create_room" ->
  iteration fuel (Recv data a rng None) s = Next s' out ->
  exists code,
    generate_room_code fuel 5 (rooms (db s)) rng = Some code /\
    out = [(room_created code, a)] /\
    s' = Server (Tables (<[code := Room {[a]}]> (rooms (db s)))
                        (<[a := code]> (client_to_room (db s)))) (Some a).
Proof.
  intros Hdata Hloads Haction. unfold iteration.
  rewrite (serve_create_room _ _ _ _ _ fields) by assumption.
  unfold do_create_room, bind, get_rooms. cbn [tbl rooms].
  destruct (generate_room_code fuel 5 (rooms (db s)) rng) as [code|] eqn:E;
    [|discriminate].
  unfold set_rooms, set_client_to_room. rewrite sendto_delivers. simpl.
  intros [= <- <-]. exists code. auto.
Qed.

(** A [join_room] for a key of [rooms]. *)
Lemma iteration_join_room_found fuel data a rng s fields code r :
  data <> [] ->
  json_loads data = inl (JObj fields) ->
  dict_get "action" fields = JStr "join_room" ->
  dict_get "room_code" fields = JStr code ->
  rooms (db s) !! code = Some r ->
  iteration fuel (Recv data a rng None) s =
  Next (Server (Tables (<[code := Room (clients r ∪ {[a]})]> (rooms (db s)))
                       (<[a := code]> (client_to_room (db s)))) (Some a))
       [(joined_room (JStr code), a)].
Proof.
  intros Hdata Hloads Haction Hcode Hr. unfold iteration.
  rewrite (serve_join_room _ _ _ _ _ fields) by assumption.
  unfold do_join_room, bind, get_rooms. rewrite Hcode. cbn [tbl rooms]. rewrite Hr.
  unfold set_rooms, set_client_to_room. rewrite sendto_delivers. reflexivity.
Qed.

(** A [send_transform] from a member of a room. *)
Lemma iteration_send_transform fuel data a c r rng s fields :
  data <> [] ->
  json_loads data = inl (JObj fields) ->
  dict_get "action" fields = JStr "send_transform" ->
  client_to_room (db s) !! a = Some c ->
  rooms (db s) !! c = Some r ->
  iteration fuel (Recv data a rng None) s =
  Next (Server (db s) (Some a))
       (map (pair data) (filter (fun m => m <> a) (elements (clients r)))).
Proof.
  intros Hdata Hloads Haction Ha Hc. unfold iteration.
  rewrite (serve_send_transform _ _ _ _ _ fields) by assumption.
  unfold do_send_transform, bind, get_client_to_room, get_rooms. simpl.
  rewrite Ha. simpl. rewrite Hc, broadcast_delivers. reflexivity.
Qed.

(** The members other than the sender, whatever the order of the visit. *)
Lemma filter_others (a : addr) (members : gset addr) :
  filter (fun m => m <> a) (elements members) ≡ₚ elements (members ∖ {[a]}).
Proof.
  apply NoDup_Permutation.
  - apply NoDup_filter, NoDup_elements.
  - apply NoDup_elements.
  - intros m. rewrite list_elem_of_filter, !elem_of_elements.
    rewrite elem_of_difference, elem_of_singleton. tauto.
Qed.

(** X17: from any tables, [a] creates a room, [b] joins it with the code of
    the reply, and [a] sends a transform.  The server answers the first two
    and relays the third to [b] alone, byte for byte. *)
Lemma create_join_send fuel data1 fields1 a b rng s s1 out1 :
  b <> a ->
  data1 <> [] ->
  json_loads data1 = inl (JObj fields1) ->
  dict_get "action" fields1 = JStr "create_room" ->
  iteration fuel (Recv data1 a rng None) s = Next s1 out1 ->
  exists code,
    out1 = [(room_created code, a)] /\
    forall fuel2 data2 fields2 rng2,
      data2 <> [] ->
      json_loads data2 = inl (JObj fields2) ->
      dict_get "action" fields2 = JStr "join_room" ->
      dict_get "room_code" fields2 = JStr code ->
      exists s2,
        iteration fuel2 (Recv data2 b rng2 None) s1 =
          Next s2 [(joined_room (JStr code), b)] /\
        forall fuel3 data3 fields3 rng3,
          data3 <> [] ->
          json_loads data3 = inl (JObj fields3) ->
          dict_get "action" fields3 = JStr "send_transform" ->
          iteration fuel3 (Recv data3 a rng3 None) s2 =
            Next (Server (db s2) (Some a)) [(data3, b)].
Proof.
  intros Hba Hdata1 Hloads1 Haction1 Hstep1.
  apply (iteration_create_room fuel data1 a rng s s1 out1 fields1) in Hstep1
    as (code & _ & -> & ->); try assumption.
  exists code. split; [reflexivity|].
  intros fuel2 data2 fields2 rng2 Hdata2 Hloads2 Haction2 Hcode2.
  eexists. split.
  { apply (iteration_join_room_found fuel2 data2 b rng2 _ fields2 code (Room {[a]}));
      try assumption. simpl. apply lookup_insert_eq. }
  intros fuel3 data3 fields3 rng3 Hdata3 Hloads3 Haction3.
  rewrite (iteration_send_transform fuel3 data3 a code (Room ({[a]} ∪ {[b]})) rng3 _ fields3);
    try assumption.
  - f_equal. cbn [clients].
    assert (Hperm : filter (fun m => m <> a) (elements ({[a]} ∪ {[b]} : gset addr)) ≡ₚ [b]).
    { rewrite filter_others.
      assert (Hb : (({[a]} ∪ {[b]}) ∖ {[a]} : gset addr) = {[b]}).
      { apply set_eq. intros m.
        rewrite elem_of_difference, elem_of_union, !elem_of_singleton.
        split; [intros [[->| ->] Hne]; [contradiction|reflexivity]|].
        intros ->. auto. }
      now rewrite Hb, elements_singleton. }
    apply Permutation_singleton_r in Hperm. now rewrite Hperm.
  - simpl. rewrite lookup_insert_ne by exact Hba. apply lookup_insert_eq.
  - simpl. apply lookup_insert_eq.
Qed.

(** ** The claims *)

(** C1 (as amended): in every reachable state, an address that
    [client_to_room] maps to a code is in the member set of the room with
    that code, which exists.  The converse is not part of the statement. *)
Theorem session_entries_are_members s :
  reachable s -> sessions_backed (db s).
Proof.
  induction 1 as [|s fuel ev s' out _ IH Hstep].
  - intros a c. simpl. now rewrite lookup_empty.
  - apply iteration_tables in Hstep as (a & t & _ & Htouched & [->| ->]).
    + eapply touched_sessions_backed; eauto.
    + apply cleanup_sessions_backed. eapply touched_sessions_backed; eauto.
Qed.

Lemma reachable_no_empty_room s : reachable s -> no_empty_room (db s).
Proof.
  induction 1 as [|s fuel ev s' out _ IH Hstep].
  - intros c r. simpl. now rewrite lookup_empty.
  - apply iteration_tables in Hstep as (a & t & _ & Htouched & [->| ->]).
    + eapply touched_no_empty_room; eauto.
    + apply cleanup_no_empty_room. eapply touched_no_empty_room; eauto.
Qed.

(** C2: when [client_to_room] has the sender [a] in room [c] and [b] is
    another member of [c], a [send_transform] datagram from [a] makes the
    server send just the datagram's own bytes, once to each member of [c]
    other than [a]: [b] gets them, [a] gets nothing, and the tables stay as
    they are. *)
Theorem send_transform_relays fuel data a b c r rng s fields :
  data <> [] ->
  json_loads data = inl (JObj fields) ->
  dict_get "action" fields = JStr "send_transform" ->
  client_to_room (db s) !! a = Some c ->
  rooms (db s) !! c = Some r ->
  b ∈ clients r -> b <> a ->
  exists out,
    iteration fuel (Recv data a rng None) s = Next (Server (db s) (Some a)) out /\
    out ≡ₚ map (pair data) (elements (clients r ∖ {[a]})) /\
    (data, b) ∈ out /\
    forall payload, (payload, a) ∉ out.
Proof.
  intros Hdata Hloads Haction Ha Hc Hb Hba.
  exists (map (pair data) (filter (fun m => m <> a) (elements (clients r)))).
  split; [|split; [|split]].
  - now apply (iteration_send_transform fuel data a c r rng s fields).
  - apply fmap_Permutation, filter_others.
  - apply list_elem_of_fmap. exists b. split; [reflexivity|].
    apply list_elem_of_filter. split; [exact Hba|]. now apply elem_of_elements.
  - intros payload Hin. apply list_elem_of_fmap in Hin as (m & [= _ <-] & Hm).
    apply list_elem_of_filter in Hm as [Hne _]. now apply Hne.
Qed.

(** The [else] branch of [join_room]: when [room_code] can be hashed (a
    string, a number, a boolean, null or no field at all) and is not a key of
    [rooms], and [sendto] does not raise, the request is answered by one
    datagram, the ["Room not found"] error to the sender, and neither table
    changes. *)
Theorem join_unknown_room_rejected fuel data a rng s fields :
  data <> [] ->
  json_loads data = inl (JObj fields) ->
  dict_get "action" fields = JStr "join_room" ->
  not_a_key (rooms (db s)) (dict_get "room_code" fields) ->
  iteration fuel (Recv data a rng None) s =
  Next (Server (db s) (Some a)) [(room_not_found, a)].
Proof.
  intros Hdata Hloads Haction Hkey. unfold iteration.
  rewrite (serve_join_room _ _ _ _ _ fields) by assumption.
  now rewrite do_join_room_not_found.
Qed.

(** The clean-up of the last member deletes the room. *)
Lemma cleanup_last_member a c t :
  client_to_room t !! a = Some c ->
  rooms t !! c = Some (Room {[a]}) ->
  cleanup a t = Tables (delete c (rooms t)) (delete a (client_to_room t)).
Proof.
  intros Ha Hc. unfold cleanup. rewrite Ha, Hc. simpl.
  rewrite decide_True by (now apply elem_of_singleton).
  rewrite decide_True by apply difference_diag_L. reflexivity.
Qed.

(** C4: no room of a reachable state is empty.  When the clean-up path
    removes the only member of a room (here through a [recvfrom] that raises
    while [addr] holds that member), the same iteration deletes the room, and
    a later [join_room] with its code is answered ["Room not found"]. *)
Theorem registry_holds_no_empty_room s :
  reachable s ->
  no_empty_room (db s) /\
  forall fuel a c,
    last_addr s = Some a ->
    client_to_room (db s) !! a = Some c ->
    rooms (db s) !! c = Some (Room {[a]}) ->
    let s1 := Server (cleanup a (db s)) (Some a) in
    iteration fuel RecvRaises s = Next s1 [] /\
    rooms (db s1) !! c = None /\
    forall fuel' data b rng fields,
      data <> [] ->
      json_loads data = inl (JObj fields) ->
      dict_get "action" fields = JStr "join_room" ->
      dict_get "room_code" fields = JStr c ->
      iteration fuel' (Recv data b rng None) s1 =
      Next (Server (db s1) (Some b)) [(room_not_found, b)].
Proof.
  intros Hreach. split; [now apply reachable_no_empty_room|].
  intros fuel a c Hlast Ha Hc. cbv zeta.
  assert (Hgone : rooms (cleanup a (db s)) !! c = None).
  { rewrite (cleanup_last_member a c) by assumption. simpl. apply lookup_delete_eq. }
  split; [|split].
  - unfold iteration. now rewrite Hlast.
  - exact Hgone.
  - intros fuel' data b rng fields Hdata Hloads Haction Hcode.
    apply (iteration_join_not_found fuel' data b rng _ fields); try assumption.
    rewrite Hcode. exact Hgone.
Qed.

(** C5: when a [create_room] request is served and its reply goes out, the
    reply is [room_created] for a code of exactly 5 characters, each an
    uppercase letter or a digit, that was not a key of [rooms] when it was
    generated; the code now names a room whose only member is the sender. *)
Theorem create_room_code_is_fresh fuel data a rng s s' out fields :
  data <> [] ->
  json_loads data = inl (JObj fields) ->
  dict_get "action" fields = JStr "create_room" ->
  iteration fuel (Recv data a rng None) s = Next s' out ->
  exists code,
    out = [(room_created code, a)] /\
    String.length code = 5 /\
    Forall (fun ch => ch ∈ alphabet) (list_ascii_of_string code) /\
    rooms (db s) !! code = None /\
    db s' = Tables (<[code := Room {[a]}]> (rooms (db s)))
                   (<[a := code]> (client_to_room (db s))).
Proof.
  intros Hdata Hloads Haction Hstep.
  apply (iteration_create_room fuel data a rng s s' out fields) in Hstep
    as (code & Hgen & -> & ->); try assumption.
  apply generate_room_code_sound in Hgen as (Hlen & Halpha & Hfree).
  exists code. auto.
Qed.

(** C6: a [send_transform] datagram from an address that [client_to_room]
    does not hold makes the server send nothing, to nobody, whatever the
    transport would do; no exception is raised and the tables stay as they
    are. *)
Theorem send_transform_unaffiliated fuel data a rng tx s fields :
  data <> [] ->
  json_loads data = inl (JObj fields) ->
  dict_get "action" fields = JStr "send_transform" ->
  client_to_room (db s) !! a = None ->
  serve fuel rng tx data a (Proc (db s) []) = (Ret tt, Proc (db s) []) /\
  iteration fuel (Recv data a rng tx) s = Next (Server (db s) (Some a)) [].
Proof.
  intros Hdata Hloads Haction Ha.
  assert (Hserve : serve fuel rng tx data a (Proc (db s) []) = (Ret tt, Proc (db s) [])).
  { rewrite (serve_send_transform _ _ _ _ _ fields) by assumption.
    unfold do_send_transform, bind, get_client_to_room. simpl. now rewrite Ha. }
  split; [exact Hserve|]. unfold iteration. now rewrite Hserve.
Qed.

(** C9: a [join_room] request without a [room_code] field is not dropped:
    [message.get] gives [None], which is not a key, and the sender gets the
    ["Room not found"] reply; neither table changes. *)
Theorem join_without_room_code fuel data a rng s fields :
  data <> [] ->
  json_loads data = inl (JObj fields) ->
  dict_get "action" fields = JStr "join_room" ->
  assoc "room_code" fields = None ->
  iteration fuel (Recv data a rng None) s =
  Next (Server (db s) (Some a)) [(room_not_found, a)].
Proof.
  intros Hdata Hloads Haction Hmissing.
  apply (iteration_join_not_found fuel data a rng s fields); try assumption.
  unfold dict_get. rewrite Hmissing. exact I.
Qed.

(** C10: an empty datagram is skipped before the codec is called: whatever
    [json_loads] is, nothing is sent and the tables stay as they are. *)
Theorem empty_datagram_skipped fuel a rng tx s :
  iteration fuel (Recv [] a rng tx) s = Next (Server (db s) (Some a)) [].
Proof. reflexivity. Qed.

End Properties.

(** While [rooms] has fewer than [36 ^ len] keys, some code of length [len]
    is free and some draws produce it at once; and on any draws, as soon as a
    candidate is free the loop returns, with a code that is not a key. *)
Theorem generate_room_code_returns_on_free_draw len (rms : gmap string room) :
  size (dom rms) < 36 ^ len ->
  (exists rng code, generate_room_code 1 len rms rng = Some code) /\
  forall rng n,
    rms !! candidate len rng n = None ->
    exists code,
      generate_room_code (S n) len rms rng = Some code /\
      rms !! code = None /\
      String.length code = len /\
      Forall (fun ch => ch ∈ alphabet) (list_ascii_of_string code).
Proof.
  intros Hsize. split.
  - destruct (free_code_exists len rms Hsize) as [rng Hfree].
    apply generate_room_code_returns in Hfree as [code Hcode]. eauto.
  - intros rng n Hfree. apply generate_room_code_returns in Hfree as [code Hcode].
    exists code. split; [exact Hcode|].
    apply generate_room_code_sound in Hcode as (? & ? & ?). auto.
Qed.

(** ** Datagrams that are not an envelope *)

Section Malformed.

Context {codec : JsonCodec}.

(** What [json.loads(data.decode())] raises goes to the handlers with the
    tables untouched and nothing sent. *)
Lemma serve_undecodable fuel rng tx data a e p :
  data <> [] -> json_loads data = inr e ->
  serve fuel rng tx data a p = (Raise e, p).
Proof.
  intros Hdata Hloads. unfold serve. destruct data; [contradiction|].
  now rewrite Hloads.
Qed.

(** A decoded value that is not a dict has no [get]. *)
Lemma serve_not_object fuel rng tx data a v p :
  data <> [] -> json_loads data = inl v ->
  (forall fields, v <> JObj fields) ->
  serve fuel rng tx data a p = (Raise AttributeError, p).
Proof.
  intros Hdata Hloads Hv. unfold serve. destruct data; [contradiction|].
  rewrite Hloads. destruct v; try reflexivity. now contradiction (Hv fields).
Qed.

(** X14: a datagram that [json.loads] rejects with [JSONDecodeError] is
    dropped: nothing is sent, on any transport, and the tables stay as they
    are. *)
Lemma not_json_dropped fuel rng tx data a s :
  data <> [] -> json_loads data = inr JSONDecodeError ->
  iteration fuel (Recv data a rng tx) s = Next (Server (db s) (Some a)) [].
Proof.
  intros Hdata Hloads. unfold iteration.
  now rewrite (serve_undecodable _ _ _ _ _ JSONDecodeError).
Qed.

(** X15: any other failure to decode (bytes that are not UTF-8, say), and
    any JSON value that is not an object, gets no reply either, but runs the
    clean-up for the sender. *)
Lemma not_envelope_cleans_up fuel rng tx data a s :
  data <> [] ->
  (exists e, json_loads data = inr e /\ e <> JSONDecodeError) \/
  (exists v, json_loads data = inl v /\ forall fields, v <> JObj fields) ->
  iteration fuel (Recv data a rng tx) s = Next (Server (cleanup a (db s)) (Some a)) [].
Proof.
  intros Hdata [(e & Hloads & He)|(v & Hloads & Hv)]; unfold iteration.
  - rewrite (serve_undecodable _ _ _ _ _ e) by assumption.
    destruct e; [contradiction| | | | |]; reflexivity.
  - now rewrite (serve_not_object _ _ _ _ _ v).
Qed.

(** X16: a [join_room] whose [room_code] is a list or a dict is not
    answered, on any transport, and runs the clean-up for the sender. *)
Lemma join_unhashable_cleans_up fuel rng tx data a s fields :
  data <> [] ->
  json_loads data = inl (JObj fields) ->
  dict_get "action" fields = JStr "join_room" ->
  (exists items, dict_get "room_code" fields = JArr items) \/
  (exists members, dict_get "room_code" fields = JObj members) ->
  iteration fuel (Recv data a rng tx) s = Next (Server (cleanup a (db s)) (Some a)) [].
Proof.
  intros Hdata Hloads Haction Hcode. unfold iteration.
  rewrite (serve_join_room _ _ _ _ _ fields) by assumption.
  now rewrite do_join_room_unhashable.
Qed.

End Malformed.

(** ** The model on concrete datagrams *)

Section Scenario.

Import Sample.
#[local] Existing Instance codec.

Lemma alice_creates :
  step (Recv create_room_request alice zeros None) initial =
  Next alice_alone [(room_created "AAAAA", alice)].
Proof. vm_compute. reflexivity. Qed.

Lemma bob_joins :
  step (Recv (join_room_request "AAAAA") bob zeros None) alice_alone =
  Next alice_and_bob [(joined_room (JStr "AAAAA"), bob)].
Proof. vm_compute. reflexivity. Qed.

Lemma alice_creates_again :
  step (Recv create_room_request alice ones None) alice_alone =
  Next alice_in_two_rooms [(room_created "BBBBB", alice)].
Proof. vm_compute. reflexivity. Qed.

Lemma reachable_alice_alone : reachable alice_alone.
Proof. eapply reachable_next; [apply reachable_initial | apply alice_creates]. Qed.

Lemma reachable_alice_and_bob : reachable alice_and_bob.
Proof. eapply reachable_next; [apply reachable_alice_alone | apply bob_joins]. Qed.

Lemma reachable_alice_in_two_rooms : reachable alice_in_two_rooms.
Proof. eapply reachable_next; [apply reachable_alice_alone | apply alice_creates_again]. Qed.

(** The bytes of the replies, as [json.dumps] prints them. *)
Example room_created_bytes :
  room_created "AAAAA" =
  object [member "action" (quoted "room_created"); member "room_code" (quoted "AAAAA")].
Proof. reflexivity. Qed.

Example room_not_found_bytes :
  room_not_found =
  object [member "action" (quoted "error"); member "message" (quoted "Room not found")].
Proof. reflexivity. Qed.

(** C1, as stated, fails: after Alice has created two rooms in a row the
    first room still lists her, while [client_to_room] maps her to the
    second. *)
Lemma lockstep_counterexample :
  reachable alice_in_two_rooms /\ ~ in_lockstep (db alice_in_two_rooms).
Proof.
  split; [apply reachable_alice_in_two_rooms|].
  intros Hlock. destruct (Hlock alice "AAAAA") as [Hmember _].
  assert (Hsession : client_to_room (db alice_in_two_rooms) !! alice = Some "AAAAA").
  { apply Hmember. exists (Room {[alice]}). split; [reflexivity|].
    cbn [clients]. apply elem_of_singleton. reflexivity. }
  vm_compute in Hsession. discriminate.
Qed.

(** C1 (as amended) at the state where Bob has joined Alice's room. *)
Lemma session_entries_are_members_witness :
  reachable alice_and_bob /\ sessions_backed (db alice_and_bob).
Proof.
  split; [apply reachable_alice_and_bob|].
  apply session_entries_are_members, reachable_alice_and_bob.
Defined.

(** C2 at the state where Bob has joined Alice's room and Alice sends. *)
Lemma send_transform_relays_witness :
  exists out,
    step (Recv send_transform_request alice zeros None) alice_and_bob =
      Next (Server (db alice_and_bob) (Some alice)) out /\
    out ≡ₚ map (pair send_transform_request)
              (elements (clients (Room {[alice; bob]}) ∖ {[alice]})) /\
    (send_transform_request, bob) ∈ out /\
    forall payload, (payload, alice) ∉ out.
Proof.
  apply (send_transform_relays 3 send_transform_request alice bob "AAAAA"
           (Room {[alice; bob]}) zeros alice_and_bob
           [("action", JStr "send_transform"); ("x", JInt 1); ("y", JInt 2)]).
  - discriminate.
  - vm_compute. reflexivity.
  - reflexivity.
  - vm_compute. reflexivity.
  - vm_compute. reflexivity.
  - vm_compute. reflexivity.
  - discriminate.
Defined.

(** The relay of the scenario, computed: Bob gets the very bytes, alone. *)
Example alice_sends :
  step (Recv send_transform_request alice zeros None) alice_and_bob =
  Next (Server (db alice_and_bob) (Some alice)) [(send_transform_request, bob)].
Proof. vm_compute. reflexivity. Qed.

(** The end of the scenario: Bob is removed by the clean-up path, the room
    keeps Alice, and her next transform has no recipient. *)
Example bob_cleaned_up :
  step RecvRaises alice_and_bob =
  Next (Server (Tables {[ "AAAAA" := Room {[alice]} ]} {[ alice := "AAAAA" ]}) (Some bob)) [].
Proof. vm_compute. reflexivity. Qed.

Example alice_sends_to_nobody :
  step (Recv send_transform_request alice zeros None)
       (Server (Tables {[ "AAAAA" := Room {[alice]} ]} {[ alice := "AAAAA" ]}) (Some bob)) =
  Next alice_alone [].
Proof. vm_compute. reflexivity. Qed.

(** C3 does not hold of the code: in the request
    [{"action": "join_room", "room_code": []}] the [room_code] is no key of
    [rooms], so the claim promises the ["Room not found"] reply and unchanged
    tables.  Instead [room_code in rooms] raises [TypeError] before the
    [else] branch is reached, the handler meant for disconnects runs, and the
    sender, Alice, gets no reply and loses her room and her entry of
    [client_to_room]. *)
Theorem join_room_list_code_evicts_sender :
  json_loads join_room_list_code =
    inl (JObj [("action", JStr "join_room"); ("room_code", JArr [])]) /\
  step (Recv join_room_list_code alice zeros None) alice_alone =
    Next (Server (Tables ∅ ∅) (Some alice)) [] /\
  db alice_alone <> Tables ∅ ∅.
Proof.
  split; [vm_compute; reflexivity|]. split; [vm_compute; reflexivity|].
  intros Heq. apply (f_equal (fun t => client_to_room t !! alice)) in Heq.
  vm_compute in Heq. discriminate.
Qed.

(** The [else] branch for Bob asking for ["ZZZZZ"] while only ["AAAAA"]
    exists. *)
Lemma join_unknown_room_rejected_witness :
  step (Recv (join_room_request "ZZZZZ") bob zeros None) alice_alone =
  Next (Server (db alice_alone) (Some bob)) [(room_not_found, bob)].
Proof.
  apply (join_unknown_room_rejected 3 (join_room_request "ZZZZZ") bob zeros alice_alone
           [("action", JStr "join_room"); ("room_code", JStr "ZZZZZ")]).
  - discriminate.
  - vm_compute. reflexivity.
  - reflexivity.
  - vm_compute. reflexivity.
Defined.

(** C4 at the state where Alice is alone in ["AAAAA"]: the clean-up empties
    the registry and Bob's later [join_room] for ["AAAAA"] is rejected. *)
Lemma registry_holds_no_empty_room_witness :
  reachable alice_alone /\
  no_empty_room (db alice_alone) /\
  step RecvRaises alice_alone = Next (Server (Tables ∅ ∅) (Some alice)) [] /\
  step (Recv (join_room_request "AAAAA") bob zeros None) (Server (Tables ∅ ∅) (Some alice)) =
  Next (Server (Tables ∅ ∅) (Some bob)) [(room_not_found, bob)].
Proof.
  split; [apply reachable_alice_alone|].
  destruct (registry_holds_no_empty_room alice_alone reachable_alice_alone)
    as [Hinv Hlast].
  split; [exact Hinv|].
  destruct (Hlast 3 alice "AAAAA" eq_refl eq_refl eq_refl) as (Hstep & _ & Hjoin).
  split; [exact Hstep|].
  apply (Hjoin 3 (join_room_request "AAAAA") bob zeros
           [("action", JStr "join_room"); ("room_code", JStr "AAAAA")]).
  - discriminate.
  - vm_compute. reflexivity.
  - reflexivity.
  - reflexivity.
Defined.

(** C5 for Alice's [create_room] in the initial state. *)
Lemma create_room_code_is_fresh_witness :
  exists code,
    [(room_created "AAAAA", alice)] = [(room_created code, alice)] /\
    String.length code = 5 /\
    Forall (fun ch => ch ∈ alphabet) (list_ascii_of_string code) /\
    rooms (db initial) !! code = None /\
    db alice_alone = Tables (<[code := Room {[alice]}]> (rooms (db initial)))
                            (<[alice := code]> (client_to_room (db initial))).
Proof.
  apply (create_room_code_is_fresh 3 create_room_request alice zeros initial alice_alone
           [(room_created "AAAAA", alice)] [("action", JStr "create_room")]).
  - discriminate.
  - vm_compute. reflexivity.
  - reflexivity.
  - vm_compute. reflexivity.
Defined.

(** C6 for Bob, who is in no room, on a transport that would refuse the
    first [sendto]. *)
Lemma send_transform_unaffiliated_witness :
  serve 3 zeros (Some 0) send_transform_request bob (Proc (db alice_alone) []) =
    (Ret tt, Proc (db alice_alone) []) /\
  step (Recv send_transform_request bob zeros (Some 0)) alice_alone =
    Next (Server (db alice_alone) (Some bob)) [].
Proof.
  apply (send_transform_unaffiliated 3 send_transform_request bob zeros (Some 0) alice_alone
           [("action", JStr "send_transform"); ("x", JInt 1); ("y", JInt 2)]).
  - discriminate.
  - vm_compute. reflexivity.
  - reflexivity.
  - vm_compute. reflexivity.
Defined.

(** C9 for Bob's [join_room] without a [room_code]. *)
Lemma join_without_room_code_witness :
  step (Recv join_room_no_code bob zeros None) alice_alone =
  Next (Server (db alice_alone) (Some bob)) [(room_not_found, bob)].
Proof.
  apply (join_without_room_code 3 join_room_no_code bob zeros alice_alone
           [("action", JStr "join_room")]).
  - discriminate.
  - vm_compute. reflexivity.
  - reflexivity.
  - reflexivity.
Defined.

(** C7 does not hold of the code: the datagram [[]] is valid JSON but not
    an object, so [message.get] raises [AttributeError] and the generic
    handler runs the clean-up.  Sent by Alice, the only member of
    ["AAAAA"], it is not answered, yet her room and her entry of
    [client_to_room] are gone. *)
Theorem non_object_json_changes_tables :
  step (Recv empty_array alice zeros None) alice_alone =
    Next (Server (Tables ∅ ∅) (Some alice)) [] /\
  db alice_alone <> Tables ∅ ∅.
Proof.
  split; [vm_compute; reflexivity|].
  intros Heq. apply (f_equal (fun t => client_to_room t !! alice)) in Heq.
  vm_compute in Heq. discriminate.
Qed.

(** Why the draws have to be fair: on a stream that selected position 0 at
    every call, which [random.choices] does not produce, every candidate
    would be ["AAAAA"], and with that one key in [rooms] no number of passes
    would return. *)
Lemma generate_room_code_counterexample :
  size (dom (rooms (db alice_alone))) < 36 ^ 5 /\
  forall fuel, generate_room_code fuel 5 (rooms (db alice_alone)) zeros = None.
Proof.
  split.
  - replace (size (dom (rooms (db alice_alone)))) with 1 by (vm_compute; reflexivity).
    apply Nat.pow_gt_1; lia.
  - intros fuel. apply generate_room_code_spins. intros n.
    replace (candidate 5 zeros n) with "AAAAA" by reflexivity.
    vm_compute. discriminate.
Qed.

(** For the registry that holds ["AAAAA"]: draws that select position 1
    give ["BBBBB"] at the first pass. *)
Lemma generate_room_code_returns_on_free_draw_witness :
  (exists rng code, generate_room_code 1 5 (rooms (db alice_alone)) rng = Some code) /\
  exists code,
    generate_room_code 1 5 (rooms (db alice_alone)) ones = Some code /\
    rooms (db alice_alone) !! code = None /\
    String.length code = 5 /\
    Forall (fun ch => ch ∈ alphabet) (list_ascii_of_string code).
Proof.
  assert (Hsize : size (dom (rooms (db alice_alone))) < 36 ^ 5).
  { replace (size (dom (rooms (db alice_alone)))) with 1 by (vm_compute; reflexivity).
    apply Nat.pow_gt_1; lia. }
  destruct (generate_room_code_returns_on_free_draw 5 (rooms (db alice_alone)) Hsize)
    as [Hsome Hfirst].
  split; [exact Hsome|].
  apply (Hfirst ones 0). vm_compute. reflexivity.
Defined.

End Scenario.

(** ** Further properties of the generator *)

(** The loop returns the candidate of pass [n] when that is the first free
    one and the fuel reaches it. *)
Lemma generate_room_code_at fuel len rms rng n :
  n < fuel ->
  rms !! candidate len rng n = None ->
  (forall m, m < n -> rms !! candidate len rng m <> None) ->
  generate_room_code fuel len rms rng = Some (candidate len rng n).
Proof.
  revert rng n. induction fuel as [|fuel IH]; intros rng n Hlt Hfree Htaken; [lia|].
  simpl. destruct n as [|n].
  - rewrite candidate_first in Hfree. rewrite Hfree. now rewrite candidate_first.
  - destruct (rms !! string_of_list_ascii (choices alphabet len rng)) as [r|] eqn:Hl.
    + rewrite <- candidate_skip. apply IH; [lia|now rewrite candidate_skip|].
      intros m Hm. rewrite candidate_skip. apply Htaken. lia.
    + exfalso. apply (Htaken 0); [lia|]. now rewrite candidate_first.
Qed.

(** X1: for any length, [generate_room_code] returns [code] exactly when
    [code] is the first drawn candidate that is not a key of [rooms]; it
    never returns a key, and never skips a free candidate. *)
Theorem generate_room_code_first_free fuel len rms rng code :
  generate_room_code fuel len rms rng = Some code <->
  exists n, n < fuel /\ code = candidate len rng n /\ rms !! code = None /\
            forall m, m < n -> rms !! candidate len rng m <> None.
Proof.
  split; [apply generate_room_code_inv|].
  intros (n & Hlt & -> & Hfree & Htaken). now apply generate_room_code_at.
Qed.

Lemma choices_in_words len rng : choices alphabet len rng ∈ words len.
Proof.
  revert rng. induction len as [|len IH]; intros rng.
  - apply list_elem_of_singleton. reflexivity.
  - rewrite words_S. apply elem_of_flat_map_cons.
    exists (nth (rng 0 mod length alphabet) alphabet Ascii.zero),
           (choices alphabet len (fun i => rng (S i))).
    split; [|split; [|apply IH]].
    + unfold choices. cbn [seq map]. now rewrite <- seq_shift, map_map.
    + apply list_elem_of_In, nth_In. rewrite length_alphabet.
      apply Nat.mod_upper_bound. discriminate.
Qed.

(** X2: when every code of length [len] is a key of [rooms], no draws make
    [generate_room_code] return: the loop goes on for ever. *)
Theorem generate_room_code_full_registry len (rms : gmap string room) :
  (forall w, w ∈ words len -> is_Some (rms !! string_of_list_ascii w)) ->
  forall fuel rng, generate_room_code fuel len rms rng = None.
Proof.
  intros Hfull fuel rng. apply generate_room_code_spins. intros n.
  unfold candidate. destruct (Hfull _ (choices_in_words len (skip (n * len) rng))) as [r ->].
  discriminate.
Qed.

(** ** Further properties of the clean-up *)

(** X3: the clean-up of [a] touches nothing but [a]'s own entry and the
    room that entry names: the entries of the other addresses stay, the other
    rooms stay, and every other member of every room stays a member. *)
Theorem cleanup_is_local a t :
  (forall b, b <> a -> client_to_room (cleanup a t) !! b = client_to_room t !! b) /\
  (forall c, client_to_room t !! a <> Some c -> rooms (cleanup a t) !! c = rooms t !! c) /\
  (forall c r b, rooms t !! c = Some r -> b ∈ clients r -> b <> a ->
     exists r', rooms (cleanup a t) !! c = Some r' /\ b ∈ clients r').
Proof.
  unfold cleanup. destruct (client_to_room t !! a) as [ca|] eqn:Ha.
  2:{ split; [reflexivity|]. split; [reflexivity|]. eauto. }
  simpl. split; [|split].
  - intros b Hb. apply lookup_delete_ne. congruence.
  - intros c Hc. assert (Hne : ca <> c) by congruence.
    destruct (rooms t !! ca) as [ra|]; [|reflexivity].
    destruct (decide (a ∈ clients ra)); [|reflexivity].
    destruct (decide (clients ra ∖ {[a]} = ∅)).
    + now apply lookup_delete_ne.
    + now apply lookup_insert_ne.
  - intros c r b Hr Hb Hba.
    destruct (rooms t !! ca) as [ra|] eqn:Hra; [|eauto].
    destruct (decide (a ∈ clients ra)); [|eauto].
    destruct (decide (ca = c)) as [->|Hc].
    + rewrite Hr in Hra. injection Hra as <-.
      assert (Hin : b ∈ clients r ∖ {[a]}).
      { apply elem_of_difference. split; [exact Hb|]. now rewrite elem_of_singleton. }
      rewrite decide_False.
      * exists (Room (clients r ∖ {[a]})). now rewrite lookup_insert_eq.
      * intros Hempty. rewrite Hempty in Hin. now apply not_elem_of_empty in Hin.
    + exists r. split; [|exact Hb].
      destruct (decide (clients ra ∖ {[a]} = ∅)).
      * now rewrite lookup_delete_ne.
      * now rewrite lookup_insert_ne.
Qed.

(** X4: after the clean-up of [a], [client_to_room] has no entry for [a]
    and the room the entry named, if it is still there, does not hold [a];
    a second clean-up of [a] changes nothing. *)
Theorem cleanup_removes a t :
  client_to_room (cleanup a t) !! a = None /\
  (forall c r, client_to_room t !! a = Some c ->
     rooms (cleanup a t) !! c = Some r -> a ∉ clients r) /\
  cleanup a (cleanup a t) = cleanup a t.
Proof.
  assert (Hgone : client_to_room (cleanup a t) !! a = None).
  { unfold cleanup. destruct (client_to_room t !! a) eqn:Ha; [|exact Ha].
    simpl. apply lookup_delete_eq. }
  split; [exact Hgone|]. split.
  - intros c r Ha. unfold cleanup. rewrite Ha. simpl.
    destruct (rooms t !! c) as [rc|] eqn:Hrc; [|now rewrite Hrc].
    destruct (decide (a ∈ clients rc)) as [Hin|Hout].
    + destruct (decide (clients rc ∖ {[a]} = ∅)).
      * now rewrite lookup_delete_eq.
      * rewrite lookup_insert_eq. intros [= <-]. simpl.
        rewrite elem_of_difference, elem_of_singleton. tauto.
    + rewrite Hrc. now intros [= <-].
  - unfold cleanup at 1. now rewrite Hgone.
Qed.

(** ** Further properties of the loop *)

(** What [broadcast] adds to the datagrams sent is for members other than
    the sender, whether or not a call raises. *)
Lemma broadcast_sent_Forall (P : datagram -> Prop) tx data sender members p r p' :
  Forall P (sent p) ->
  (forall m, m ∈ members -> m <> sender -> P (data, m)) ->
  broadcast tx data sender members p = (r, p') ->
  Forall P (sent p').
Proof.
  revert p. induction members as [|m members IH]; intros p Hp Hm; simpl.
  - now intros [= <- <-].
  - unfold bind. case_decide as Hsender.
    + simpl. apply IH; [exact Hp|]. intros m' Hm'. apply Hm. now right.
    + unfold sendto. case_decide as Htx.
      * now intros [= <- <-].
      * apply IH.
        -- simpl. apply Forall_app. split; [exact Hp|].
           apply Forall_singleton, Hm; [now left|exact Hsender].
        -- intros m' Hm'. apply Hm. now right.
Qed.

(** The call number [k] raises: the first [k] recipients have been served. *)
Lemma broadcast_fails_at k data sender members p :
  length (sent p) <= k ->
  k < length (sent p) + length (filter (fun m => m <> sender) members) ->
  broadcast (Some k) data sender members p =
  (Raise OSError,
   Proc (tbl p) (sent p ++ map (pair data)
                   (take (k - length (sent p)) (filter (fun m => m <> sender) members)))).
Proof.
  revert p. induction members as [|m members IH]; intros p Hle Hlt.
  - simpl in Hlt. lia.
  - simpl. unfold bind. rewrite filter_cons in *.
    destruct (decide (m = sender)) as [Hsender|Hsender].
    + rewrite (decide_False (P := m <> sender)) in * by (intros Hne; now apply Hne).
      simpl. now apply IH.
    + rewrite (decide_True (P := m <> sender)) in * by exact Hsender. simpl in Hlt.
      unfold sendto. case_decide as Htx.
      * injection Htx as ->. rewrite Nat.sub_diag. simpl. rewrite app_nil_r. now destruct p.
      * assert (Hk : length (sent p) < k) by (assert (k <> length (sent p)) by congruence; lia).
        rewrite IH; simpl; rewrite ?length_app; simpl; try lia.
        replace (k - length (sent p)) with (S (k - (length (sent p) + 1))) by lia.
        simpl. now rewrite <- app_assoc.
Qed.

Section Further.

Context {codec : JsonCodec}.

Lemma eq_str_ne v t : v <> JStr t -> eq_str v t = false.
Proof.
  destruct v; try reflexivity. intros Hne. simpl.
  apply bool_decide_eq_false_2. congruence.
Qed.

(** X5: a decoded object whose [action] is none of the three known strings
    (or is missing) is dropped: nothing is sent, on any transport, and the
    tables stay as they are. *)
Theorem unknown_action_dropped fuel data a rng tx s fields :
  data <> [] ->
  json_loads data = inl (JObj fields) ->
  dict_get "action" fields <> JStr "create_room" ->
  dict_get "action" fields <> JStr "join_room" ->
  dict_get "action" fields <> JStr "send_transform" ->
  iteration fuel (Recv data a rng tx) s = Next (Server (db s) (Some a)) [].
Proof.
  intros Hdata Hloads Hcreate Hjoin Hsend. unfold iteration, serve.
  destruct data; [contradiction|]. rewrite Hloads.
  rewrite (eq_str_ne _ "create_room"), (eq_str_ne _ "join_room"),
    (eq_str_ne _ "send_transform") by assumption.
  reflexivity.
Qed.

Lemma reachable_unbound s : reachable s -> last_addr s = None -> s = initial.
Proof.
  intros [|s0 fuel ev s' out _ Hstep]; [reflexivity|].
  apply iteration_tables in Hstep as (a & t & Hlast & _). congruence.
Qed.

Lemma iteration_recv_next fuel data a rng tx s :
  iteration fuel (Recv data a rng tx) s = Stuck \/
  exists t out, iteration fuel (Recv data a rng tx) s = Next (Server t (Some a)) out.
Proof.
  unfold iteration.
  destruct (serve fuel rng tx data a (Proc (db s) [])) as [[[]|e|] p]; [| |now left];
    right; [|destruct e]; eauto.
Qed.

(** X6: of the exceptions that [except Exception] catches, the only one
    that gets out of [server_program] is the one the handler itself raises
    when it reads [addr] unbound: from a reachable state an iteration ends in
    [Exit] if and only if [recvfrom] raises before any datagram has been
    received.  (Whether an iteration returns at all is another matter: a
    [create_room] can stay in the loop of [generate_room_code].) *)
Theorem exits_only_before_first_datagram fuel ev s :
  reachable s ->
  iteration fuel ev s = Exit <-> ev = RecvRaises /\ s = initial.
Proof.
  intros Hreach. split.
  - destruct ev as [data a rng tx|].
    + destruct (iteration_recv_next fuel data a rng tx s) as [->|(t & out & ->)];
        discriminate.
    + unfold iteration. destruct (last_addr s) eqn:Hlast; [discriminate|].
      intros _. split; [reflexivity|]. now apply reachable_unbound.
  - intros [-> ->]. reflexivity.
Qed.

(** X7: when [recvfrom] raises, the clean-up runs for the sender of the
    datagram received before (whatever that datagram was), and nothing is
    sent. *)
Theorem recv_error_evicts_previous_sender fuel data a rng tx s s1 out fuel' :
  iteration fuel (Recv data a rng tx) s = Next s1 out ->
  iteration fuel' RecvRaises s1 = Next (Server (cleanup a (db s1)) (Some a)) [].
Proof.
  destruct (iteration_recv_next fuel data a rng tx s) as [->|(t & out' & ->)];
    [discriminate|].
  intros [= <- _]. reflexivity.
Qed.

(** X8: a served [create_room] leaves every existing room as it was, adds
    exactly one room, and changes no other address's entry of
    [client_to_room]. *)
Theorem create_room_keeps_rooms fuel data a rng s s' out fields :
  data <> [] ->
  json_loads data = inl (JObj fields) ->
  dict_get "action" fields = JStr "create_room" ->
  iteration fuel (Recv data a rng None) s = Next s' out ->
  (forall c r, rooms (db s) !! c = Some r -> rooms (db s') !! c = Some r) /\
  size (rooms (db s')) = S (size (rooms (db s))) /\
  (forall b, b <> a -> client_to_room (db s') !! b = client_to_room (db s) !! b).
Proof.
  intros Hdata Hloads Haction Hstep.
  apply (iteration_create_room fuel data a rng s s' out fields) in Hstep
    as (code & Hgen & _ & ->); try assumption.
  apply generate_room_code_sound in Hgen as (_ & _ & Hfree). simpl.
  split; [|split].
  - intros c r Hr. rewrite lookup_insert_ne; [exact Hr|]. intros ->. congruence.
  - now apply map_size_insert_None.
  - intros b Hb. apply lookup_insert_ne. congruence.
Qed.

(** X9: when the reply to a [create_room] cannot be sent, the clean-up
    deletes the room just created: [rooms] ends as it was, nothing was sent,
    and the sender has no entry in [client_to_room], not even the one it had
    before. *)
Theorem create_room_reply_fails fuel data a rng s s' out fields :
  data <> [] ->
  json_loads data = inl (JObj fields) ->
  dict_get "action" fields = JStr "create_room" ->
  iteration fuel (Recv data a rng (Some 0)) s = Next s' out ->
  out = [] /\
  rooms (db s') = rooms (db s) /\
  client_to_room (db s') = delete a (client_to_room (db s)).
Proof.
  intros Hdata Hloads Haction. unfold iteration.
  rewrite (serve_create_room _ _ _ _ _ fields) by assumption.
  unfold do_create_room, bind, get_rooms. cbn [tbl rooms].
  destruct (generate_room_code fuel 5 (rooms (db s)) rng) as [code|] eqn:E;
    [|discriminate].
  apply generate_room_code_sound in E as (_ & _ & Hfree).
  unfold set_rooms, set_client_to_room, sendto. simpl.
  intros [= <- <-]. split; [reflexivity|].
  rewrite (cleanup_last_member a code) by (simpl; apply lookup_insert_eq).
  simpl. split; [now apply delete_insert_id | apply delete_insert_eq].
Qed.

(** X10: [join_room] for an existing room adds the sender to its member
    set, maps the sender to the room and answers [joined_room]; the same
    request once more is answered the same way and changes nothing. *)
Theorem join_room_twice fuel fuel' data a rng rng' s fields code r :
  data <> [] ->
  json_loads data = inl (JObj fields) ->
  dict_get "action" fields = JStr "join_room" ->
  dict_get "room_code" fields = JStr code ->
  rooms (db s) !! code = Some r ->
  let s1 := Server (Tables (<[code := Room (clients r ∪ {[a]})]> (rooms (db s)))
                           (<[a := code]> (client_to_room (db s)))) (Some a) in
  iteration fuel (Recv data a rng None) s = Next s1 [(joined_room (JStr code), a)] /\
  iteration fuel' (Recv data a rng' None) s1 = Next s1 [(joined_room (JStr code), a)].
Proof.
  intros Hdata Hloads Haction Hcode Hr s1. split.
  - now apply (iteration_join_room_found fuel data a rng s fields code r).
  - rewrite (iteration_join_room_found fuel' data a rng' s1 fields code
               (Room (clients r ∪ {[a]}))); try assumption.
    + unfold s1. simpl. rewrite !insert_insert_eq.
      replace (clients r ∪ {[a]} ∪ {[a]}) with (clients r ∪ {[a]}); [reflexivity|].
      apply set_eq. intros m. rewrite !elem_of_union. tauto.
    + unfold s1. simpl. apply lookup_insert_eq.
Qed.

Lemma serve_sent fuel rng tx data a t r p :
  serve fuel rng tx data a (Proc t []) = (r, p) ->
  Forall (reply_or_relay t data a) (sent p).
Proof.
  assert (Hreply : forall payload tx' t' r' p',
            sendto tx' payload a (Proc t' []) = (r', p') ->
            Forall (reply_or_relay t data a) (sent p')).
  { intros payload tx' t' r' p'. unfold sendto. case_decide; intros [= <- <-]; simpl.
    - constructor.
    - apply Forall_singleton. now left. }
  unfold serve. destruct data as [|b data]; [intros [= <- <-]; constructor|].
  destruct (json_loads (b :: data)) as [[| | | | | |fields]|e];
    try (intros [= <- <-]; constructor).
  destruct (eq_str _ "create_room").
  { unfold do_create_room, bind, get_rooms. simpl.
    destruct (generate_room_code fuel 5 (rooms t) rng); [|intros [= <- <-]; constructor].
    unfold set_rooms, set_client_to_room. simpl. apply Hreply. }
  destruct (eq_str _ "join_room").
  { unfold do_join_room, bind, get_rooms. simpl.
    destruct (dict_get "room_code" fields) as [| | | |code| |];
      try apply Hreply; try (intros [= <- <-]; constructor).
    destruct (rooms t !! code); [|apply Hreply].
    unfold set_rooms, set_client_to_room. simpl. apply Hreply. }
  destruct (eq_str _ "send_transform"); [|intros [= <- <-]; constructor].
  unfold do_send_transform, bind, get_client_to_room, get_rooms. simpl.
  destruct (client_to_room t !! a) as [c|] eqn:Ha; [|intros [= <- <-]; constructor].
  simpl. destruct (rooms t !! c) as [rm|] eqn:Hc; [|intros [= <- <-]; constructor].
  apply broadcast_sent_Forall; [constructor|].
  intros m Hm Hne. right. simpl. split; [reflexivity|]. split; [exact Hne|].
  exists c, rm. split; [exact Ha|]. split; [exact Hc|]. now apply elem_of_elements.
Qed.

(** X11: whatever the datagram and the transport do, every datagram the
    server sends while serving [(data, a)] is either addressed to [a] itself
    or carries the very bytes of [data] to another member of the room that
    [client_to_room] names for [a].  Nothing goes to a peer outside that
    room. *)
Theorem outputs_are_replies_or_relays fuel data a rng tx s s' out :
  iteration fuel (Recv data a rng tx) s = Next s' out ->
  Forall (reply_or_relay (db s) data a) out.
Proof.
  unfold iteration.
  destruct (serve fuel rng tx data a (Proc (db s) [])) as [[[]|e|] p] eqn:E;
    [| |discriminate]; apply serve_sent in E.
  - now intros [= _ <-].
  - destruct e; now intros [= _ <-].
Qed.

(** X12: when [sendto] raises at the call number [k] of a relay, the [k]
    members served before it have been sent the datagram, and the clean-up
    then runs for the sender of the transform, not for the recipient. *)
Theorem relay_failure_evicts_sender fuel data a c r rng k s fields :
  data <> [] ->
  json_loads data = inl (JObj fields) ->
  dict_get "action" fields = JStr "send_transform" ->
  client_to_room (db s) !! a = Some c ->
  rooms (db s) !! c = Some r ->
  k < size (clients r ∖ {[a]}) ->
  exists out,
    iteration fuel (Recv data a rng (Some k)) s =
      Next (Server (cleanup a (db s)) (Some a)) out /\
    length out = k /\
    Forall (fun d => d.1 = data /\ d.2 ∈ clients r /\ d.2 <> a) out.
Proof.
  intros Hdata Hloads Haction Ha Hc Hk.
  set (others := filter (fun m => m <> a) (elements (clients r))).
  assert (Hlen : length others = size (clients r ∖ {[a]})).
  { unfold others. now rewrite filter_others. }
  exists (map (pair data) (take k others)). split; [|split].
  - unfold iteration. rewrite (serve_send_transform _ _ _ _ _ fields) by assumption.
    unfold do_send_transform, bind, get_client_to_room, get_rooms. simpl.
    rewrite Ha. simpl. rewrite Hc.
    rewrite broadcast_fails_at by (simpl; fold others; lia).
    simpl. now rewrite Nat.sub_0_r.
  - rewrite length_map, length_take. lia.
  - apply Forall_fmap, Forall_take, Forall_forall. intros m Hm. simpl.
    apply list_elem_of_filter in Hm as [Hne Hm]. apply elem_of_elements in Hm. auto.
Qed.

Lemma cleanup_room_keys a t c :
  is_Some (rooms (cleanup a t) !! c) -> is_Some (rooms t !! c).
Proof.
  unfold cleanup. destruct (client_to_room t !! a) as [ca|]; [|auto]. simpl.
  destruct (rooms t !! ca) as [ra|] eqn:Hra; [|auto].
  destruct (decide (a ∈ clients ra)); [|auto].
  destruct (decide (clients ra ∖ {[a]} = ∅)).
  - destruct (decide (ca = c)) as [->|Hne]; [now rewrite lookup_delete_eq; intros []|].
    now rewrite lookup_delete_ne.
  - destruct (decide (ca = c)) as [->|Hne]; [now rewrite Hra|].
    now rewrite lookup_insert_ne.
Qed.

Lemma serve_room_keys fuel rng tx data a t r p c :
  serve fuel rng tx data a (Proc t []) = (r, p) ->
  is_Some (rooms (tbl p) !! c) ->
  is_Some (rooms t !! c) \/ well_formed_code c.
Proof.
  unfold serve. destruct data as [|b data]; [intros [= <- <-]; auto|].
  destruct (json_loads (b :: data)) as [[| | | | | |fields]|e];
    try (intros [= <- <-]; auto).
  destruct (eq_str _ "create_room").
  { unfold do_create_room, bind, get_rooms. simpl.
    destruct (generate_room_code fuel 5 (rooms t) rng) as [code|] eqn:E;
      [|intros [= <- <-]; auto].
    apply generate_room_code_sound in E as (Hlen & Halpha & _).
    unfold set_rooms, set_client_to_room. simpl. intros Hs. apply sendto_tbl in Hs.
    rewrite Hs. simpl. destruct (decide (code = c)) as [<-|Hne].
    - intros _. right. now split.
    - rewrite lookup_insert_ne by exact Hne. auto. }
  destruct (eq_str _ "join_room").
  { unfold do_join_room, bind, get_rooms. simpl.
    destruct (dict_get "room_code" fields) as [| | | |code| |];
      try (intros Hs; apply sendto_tbl in Hs; rewrite Hs; now auto);
      try (intros [= <- <-]; now auto).
    destruct (rooms t !! code) as [rm|] eqn:Hrm;
      [|intros Hs; apply sendto_tbl in Hs; rewrite Hs; now auto].
    unfold set_rooms, set_client_to_room. simpl. intros Hs. apply sendto_tbl in Hs.
    rewrite Hs. simpl. destruct (decide (code = c)) as [<-|Hne].
    - intros _. left. now rewrite Hrm.
    - rewrite lookup_insert_ne by exact Hne. auto. }
  destruct (eq_str _ "send_transform"); [|intros [= <- <-]; auto].
  intros Hs. apply do_send_transform_tbl in Hs. rewrite Hs. auto.
Qed.

(** X13: in every reachable state each key of [rooms] is a code of five
    characters, all uppercase letters or digits. *)
Theorem reachable_room_codes s :
  reachable s ->
  forall c r, rooms (db s) !! c = Some r -> well_formed_code c.
Proof.
  induction 1 as [|s fuel ev s' out _ IH Hstep]; intros c r Hc.
  - simpl in Hc. now rewrite lookup_empty in Hc.
  - assert (Hkeys : is_Some (rooms (db s) !! c) \/ well_formed_code c).
    { revert Hstep. unfold iteration. destruct ev as [data a rng tx|].
      - destruct (serve fuel rng tx data a (Proc (db s) [])) as [[[]|e|] p] eqn:E;
          [| |discriminate].
        + intros [= <- _]. simpl in Hc. eapply serve_room_keys; eauto.
        + assert (Hp : is_Some (rooms (tbl p) !! c) -> is_Some (rooms (db s) !! c) \/
                         well_formed_code c) by (eapply serve_room_keys; eauto).
          destruct e; intros [= <- _]; simpl in Hc; apply Hp; eauto;
            eapply cleanup_room_keys; eauto.
      - destruct (last_addr s) as [a|]; [|discriminate].
        intros [= <- _]. simpl in Hc. left. eapply cleanup_room_keys; eauto. }
    destruct Hkeys as [[r0 Hr0]|Hwf]; [eapply IH; eauto|exact Hwf].
Qed.

Lemma touched_keeps_members a t t' :
  touched a t t' ->
  (forall c r b, rooms t !! c = Some r -> b ∈ clients r ->
     exists r', rooms t' !! c = Some r' /\ b ∈ clients r') /\
  (forall b c, client_to_room t !! b = Some c -> is_Some (client_to_room t' !! b)).
Proof.
  intros [|code Hfree|code rm Hrm]; [eauto| |]; simpl; split.
  - intros c r b Hr Hb. exists r. split; [|exact Hb].
    rewrite lookup_insert_ne; [exact Hr|]. intros ->. congruence.
  - intros b c Hb. destruct (decide (a = b)) as [->|Hne];
      [rewrite lookup_insert_eq|rewrite lookup_insert_ne by exact Hne]; eauto.
  - intros c r b Hr Hb. destruct (decide (code = c)) as [->|Hne].
    + exists (Room (clients rm ∪ {[a]})). rewrite lookup_insert_eq.
      split; [reflexivity|]. simpl. rewrite Hrm in Hr. injection Hr as ->.
      apply elem_of_union. now left.
    + exists r. now rewrite lookup_insert_ne.
  - intros b c Hb. destruct (decide (a = b)) as [->|Hne];
      [rewrite lookup_insert_eq|rewrite lookup_insert_ne by exact Hne]; eauto.
Qed.

(** X18: an iteration whose [try] block completes without an exception
    removes nobody: every member of every room is still a member of it, and
    every address with an entry in [client_to_room] still has one.  Members
    and entries go away through the exception handler only. *)
Theorem members_leave_only_by_exception fuel data a rng tx s p :
  serve fuel rng tx data a (Proc (db s) []) = (Ret tt, p) ->
  iteration fuel (Recv data a rng tx) s = Next (Server (tbl p) (Some a)) (sent p) /\
  (forall c r b, rooms (db s) !! c = Some r -> b ∈ clients r ->
     exists r', rooms (tbl p) !! c = Some r' /\ b ∈ clients r') /\
  (forall b c, client_to_room (db s) !! b = Some c ->
     is_Some (client_to_room (tbl p) !! b)).
Proof.
  intros Hserve. split.
  - unfold iteration. now rewrite Hserve.
  - apply (touched_keeps_members a). eapply serve_touched, Hserve.
Qed.

End Further.

(** ** The further properties on concrete datagrams *)

Section FurtherScenario.

Import Sample.

(** X2 at the registry that holds the 36 codes of length 1. *)
Lemma generate_room_code_full_registry_witness :
  generate_room_code 50 1 More.single_letter_rooms ones = None.
Proof.
  refine (generate_room_code_full_registry 1 More.single_letter_rooms _ 50 ones).
  apply Forall_forall.
  apply (bool_decide_unpack
           (Forall (fun w => is_Some (More.single_letter_rooms !! string_of_list_ascii w))
                   (words 1))).
  vm_compute. exact I.
Defined.

(** X5 for a [leave_room] request from Bob. *)
Lemma unknown_action_dropped_witness :
  iteration (codec := More.codec) 3
    (Recv More.leave_room_request bob zeros (Some 0)) alice_and_bob =
  Next (Server (db alice_and_bob) (Some bob)) [].
Proof.
  apply (unknown_action_dropped (codec := More.codec) 3 More.leave_room_request bob zeros
           (Some 0) alice_and_bob [("action", JStr "leave_room")]).
  - discriminate.
  - vm_compute. reflexivity.
  - discriminate.
  - discriminate.
  - discriminate.
Defined.

(** X6 at the initial state, where a [recvfrom] that raises does make the
    loop exit, and at the state where Alice is alone, where it does not. *)
Lemma exits_only_before_first_datagram_witness :
  (iteration (codec := codec) 3 RecvRaises initial = Exit <->
   RecvRaises = RecvRaises /\ initial = initial) /\
  iteration (codec := codec) 3 RecvRaises initial = Exit /\
  iteration (codec := codec) 3 RecvRaises alice_alone <> Exit.
Proof.
  split; [|split].
  - apply (exits_only_before_first_datagram (codec := codec) 3 RecvRaises initial).
    apply reachable_initial.
  - apply (exits_only_before_first_datagram (codec := codec) 3 RecvRaises initial).
    + apply reachable_initial.
    + split; reflexivity.
  - intros Hexit.
    apply (exits_only_before_first_datagram (codec := codec) 3 RecvRaises alice_alone)
      in Hexit as [_ Heq]; [discriminate|apply reachable_alice_alone].
Defined.

(** X7 after Bob's [join_room]: the clean-up of a later [recvfrom] error
    runs for Bob. *)
Lemma recv_error_evicts_previous_sender_witness :
  iteration (codec := codec) 3 RecvRaises alice_and_bob =
  Next (Server (cleanup bob (db alice_and_bob)) (Some bob)) [].
Proof.
  apply (recv_error_evicts_previous_sender (codec := codec) 3 (join_room_request "AAAAA")
           bob zeros None alice_alone alice_and_bob
           [(joined_room (codec := codec) (JStr "AAAAA"), bob)] 3).
  apply bob_joins.
Defined.

(** X8 for Alice's second [create_room]. *)
Lemma create_room_keeps_rooms_witness :
  (forall c r, rooms (db alice_alone) !! c = Some r ->
     rooms (db alice_in_two_rooms) !! c = Some r) /\
  size (rooms (db alice_in_two_rooms)) = S (size (rooms (db alice_alone))) /\
  (forall b, b <> alice ->
     client_to_room (db alice_in_two_rooms) !! b = client_to_room (db alice_alone) !! b).
Proof.
  apply (create_room_keeps_rooms (codec := codec) 3 create_room_request alice ones
           alice_alone alice_in_two_rooms
           [(room_created (codec := codec) "BBBBB", alice)] [("action", JStr "create_room")]).
  - discriminate.
  - vm_compute. reflexivity.
  - reflexivity.
  - apply alice_creates_again.
Defined.

(** X9 for Alice's second [create_room] when the reply cannot be sent: she
    is left in ["AAAAA"] without an entry in [client_to_room]. *)
Lemma create_room_reply_fails_witness :
  ([] : list datagram) = [] /\
  rooms (Tables {[ "AAAAA" := Room {[alice]} ]} ∅) = rooms (db alice_alone) /\
  client_to_room (Tables {[ "AAAAA" := Room {[alice]} ]} ∅) =
    delete alice (client_to_room (db alice_alone)).
Proof.
  apply (create_room_reply_fails (codec := codec) 3 create_room_request alice ones
           alice_alone (Server (Tables {[ "AAAAA" := Room {[alice]} ]} ∅) (Some alice))
           [] [("action", JStr "create_room")]).
  - discriminate.
  - vm_compute. reflexivity.
  - reflexivity.
  - vm_compute. reflexivity.
Defined.

(** X10 for Bob joining ["AAAAA"], twice. *)
Lemma join_room_twice_witness :
  let s1 := Server (Tables (<["AAAAA" := Room (clients (Room {[alice]}) ∪ {[bob]})]>
                              (rooms (db alice_alone)))
                           (<[bob := "AAAAA"]> (client_to_room (db alice_alone))))
                   (Some bob) in
  iteration (codec := codec) 3 (Recv (join_room_request "AAAAA") bob zeros None) alice_alone =
    Next s1 [(joined_room (codec := codec) (JStr "AAAAA"), bob)] /\
  iteration (codec := codec) 3 (Recv (join_room_request "AAAAA") bob ones None) s1 =
    Next s1 [(joined_room (codec := codec) (JStr "AAAAA"), bob)].
Proof.
  apply (join_room_twice (codec := codec) 3 3 (join_room_request "AAAAA") bob zeros ones
           alice_alone [("action", JStr "join_room"); ("room_code", JStr "AAAAA")]
           "AAAAA" (Room {[alice]})).
  - discriminate.
  - vm_compute. reflexivity.
  - reflexivity.
  - reflexivity.
  - reflexivity.
Defined.

(** X11 for Alice's transform in the room she shares with Bob. *)
Lemma outputs_are_replies_or_relays_witness :
  Forall (reply_or_relay (db alice_and_bob) send_transform_request alice)
         [(send_transform_request, bob)].
Proof.
  apply (outputs_are_replies_or_relays (codec := codec) 3 send_transform_request alice zeros
           None alice_and_bob (Server (db alice_and_bob) (Some alice))).
  apply alice_sends.
Defined.

(** X12 for Alice's transform when the one [sendto], to Bob, raises. *)
Lemma relay_failure_evicts_sender_witness :
  exists out,
    iteration (codec := codec) 3 (Recv send_transform_request alice zeros (Some 0))
      alice_and_bob =
      Next (Server (cleanup alice (db alice_and_bob)) (Some alice)) out /\
    length out = 0 /\
    Forall (fun d => d.1 = send_transform_request /\
                     d.2 ∈ clients (Room {[alice; bob]}) /\ d.2 <> alice) out.
Proof.
  apply (relay_failure_evicts_sender (codec := codec) 3 send_transform_request alice "AAAAA"
           (Room {[alice; bob]}) zeros 0 alice_and_bob
           [("action", JStr "send_transform"); ("x", JInt 1); ("y", JInt 2)]).
  - discriminate.
  - vm_compute. reflexivity.
  - reflexivity.
  - vm_compute. reflexivity.
  - vm_compute. reflexivity.
  - vm_compute. lia.
Defined.

(** X13 at the state where Bob has joined Alice's room. *)
Lemma reachable_room_codes_witness : well_formed_code "AAAAA".
Proof.
  apply (reachable_room_codes (codec := codec) alice_and_bob reachable_alice_and_bob
           "AAAAA" (Room {[alice; bob]})).
  reflexivity.
Defined.

(** X14 for the datagram [hello] from Alice. *)
Lemma not_json_dropped_witness :
  iteration (codec := codec) 3 (Recv not_json alice zeros None) alice_alone =
  Next (Server (db alice_alone) (Some alice)) [].
Proof.
  apply (not_json_dropped (codec := codec) 3 zeros None not_json alice alice_alone).
  - discriminate.
  - vm_compute. reflexivity.
Defined.

(** X15 for the datagram [[]] from Alice. *)
Lemma not_envelope_cleans_up_witness :
  iteration (codec := codec) 3 (Recv empty_array alice zeros None) alice_alone =
  Next (Server (cleanup alice (db alice_alone)) (Some alice)) [].
Proof.
  apply (not_envelope_cleans_up (codec := codec) 3 zeros None empty_array alice alice_alone).
  - discriminate.
  - right. exists (JArr []). split; [vm_compute; reflexivity|]. discriminate.
Defined.

(** X16 for Alice's [join_room] with a list as [room_code]. *)
Lemma join_unhashable_cleans_up_witness :
  iteration (codec := codec) 3 (Recv join_room_list_code alice zeros None) alice_alone =
  Next (Server (cleanup alice (db alice_alone)) (Some alice)) [].
Proof.
  apply (join_unhashable_cleans_up (codec := codec) 3 zeros None join_room_list_code alice
           alice_alone [("action", JStr "join_room"); ("room_code", JArr [])]).
  - discriminate.
  - vm_compute. reflexivity.
  - reflexivity.
  - left. exists []. reflexivity.
Defined.

(** X17 from the initial state, with Alice and Bob. *)
Lemma create_join_send_witness :
  exists code,
    [(room_created (codec := codec) "AAAAA", alice)] =
      [(room_created (codec := codec) code, alice)] /\
    forall fuel2 data2 fields2 rng2,
      data2 <> [] ->
      json_loads (JsonCodec := codec) data2 = inl (JObj fields2) ->
      dict_get "action" fields2 = JStr "join_room" ->
      dict_get "room_code" fields2 = JStr code ->
      exists s2,
        iteration (codec := codec) fuel2 (Recv data2 bob rng2 None) alice_alone =
          Next s2 [(joined_room (codec := codec) (JStr code), bob)] /\
        forall fuel3 data3 fields3 rng3,
          data3 <> [] ->
          json_loads (JsonCodec := codec) data3 = inl (JObj fields3) ->
          dict_get "action" fields3 = JStr "send_transform" ->
          iteration (codec := codec) fuel3 (Recv data3 alice rng3 None) s2 =
            Next (Server (db s2) (Some alice)) [(data3, bob)].
Proof.
  apply (create_join_send (codec := codec) 3 create_room_request
           [("action", JStr "create_room")] alice bob zeros initial alice_alone
           [(room_created (codec := codec) "AAAAA", alice)]).
  - discriminate.
  - discriminate.
  - vm_compute. reflexivity.
  - reflexivity.
  - apply alice_creates.
Defined.

(** X18 for Bob's [join_room]: the [try] block returns, Alice stays. *)
Lemma members_leave_only_by_exception_witness :
  let p := Proc (db alice_and_bob) [(joined_room (codec := codec) (JStr "AAAAA"), bob)] in
  iteration (codec := codec) 3 (Recv (join_room_request "AAAAA") bob zeros None) alice_alone =
    Next (Server (tbl p) (Some bob)) (sent p) /\
  (forall c r b, rooms (db alice_alone) !! c = Some r -> b ∈ clients r ->
     exists r', rooms (tbl p) !! c = Some r' /\ b ∈ clients r') /\
  (forall b c, client_to_room (db alice_alone) !! b = Some c ->
     is_Some (client_to_room (tbl p) !! b)).
Proof.
  apply (members_leave_only_by_exception (codec := codec) 3 (join_room_request "AAAAA") bob
           zeros None alice_alone).
  vm_compute. reflexivity.
Defined.

End FurtherScenario.

(** ** Termination of the generator *)






(** The same run, computed: with two passes of fuel the function returns
    ["BAAAA"]. *)
Example generate_room_code_counting :
  generate_room_code 2 5 (rooms (db Sample.alice_alone)) (counting 5) = Some "BAAAA".
Proof. vm_compute. reflexivity. Qed.
